(** * msync.py: a shallow embedding and its verified properties

    [msync.py] copies a path from the local host to a list of hosts with
    rsync over ssh.  The script builds a roster whose first entry is the
    local host, normalises the source path, and then runs rounds: in each
    round it plans pairwise copies, hands them to a pool of worker processes
    through a queue, and waits for the workers.

    The embedding follows the script top to bottom.  Python integers are [Z],
    strings are [string], the instances of [CommandTask] and [CommandProcess]
    are attribute dictionaries ([gmap string PyVal]) read through name
    mangling, and everything the script asks of the outside world (host name,
    file system, outcome of the external commands, which worker takes the
    next step) is a field of [Env]. *)

From Stdlib Require Import ZArith List String Ascii Bool Lia.
From stdpp Require Import base list strings gmap.

Local Open Scope Z_scope.

(** ** Python primitives used by the script *)

Module Py.

(** Exceptions the embedded code can raise. *)
Inductive Exn :=
| AttributeError (attribute : string)
| IndexError
| TypeError
| ValueError
| UnicodeDecodeError
| OSError.

(** Values stored in instance attributes. *)
Inductive PyVal :=
| VBool (b : bool)
| VStr (s : string)
| VQueue.

(** [obj.attr]: a missing attribute raises [AttributeError]. *)
Definition getattr (obj : gmap string PyVal) (attr : string) : Exn + PyVal :=
  match obj !! attr with
  | Some v => inr v
  | None => inl (AttributeError attr)
  end.

(** Inside [class cls], the identifier [__name] is compiled to
    [_cls__name]. *)
Definition mangle (cls ident : string) : string := "_" +:+ cls +:+ ident.

(** [str.isspace] on one character; characters are code points below 256. *)
Definition is_space (c : ascii) : bool :=
  let n := nat_of_ascii c in
  ((9 <=? n)%nat && (n <=? 13)%nat) || ((28 <=? n)%nat && (n <=? 32)%nat)
  || (n =? 133)%nat || (n =? 160)%nat.

Fixpoint lstrip (s : string) : string :=
  match s with
  | EmptyString => EmptyString
  | String c s' => if is_space c then lstrip s' else s
  end.

Fixpoint rstrip (s : string) : string :=
  match s with
  | EmptyString => EmptyString
  | String c s' =>
      let r := rstrip s' in
      if is_space c && String.eqb r "" then EmptyString else String c r
  end.

(** [s.strip()] *)
Definition strip (s : string) : string := rstrip (lstrip s).

(** [s.rstrip(ch)] for a single character [ch]. *)
Fixpoint rstrip_char (ch : ascii) (s : string) : string :=
  match s with
  | EmptyString => EmptyString
  | String c s' =>
      let r := rstrip_char ch s' in
      if Ascii.eqb c ch && String.eqb r "" then EmptyString else String c r
  end.

(** [s.startswith(p)] and [s.endswith(p)] *)
Definition startswith (s p : string) : bool := String.prefix p s.

Definition endswith (s p : string) : bool :=
  (String.length p <=? String.length s)%nat
  && String.eqb (substring (String.length s - String.length p) (String.length p) s) p.

(** [s[:-1]] *)
Definition drop_last (s : string) : string :=
  substring 0 (String.length s - 1) s.

(** [s.split(sep)] for a single character [sep]: never the empty list. *)
Fixpoint split (sep : ascii) (s : string) : list string :=
  match s with
  | EmptyString => [EmptyString]
  | String c s' =>
      if Ascii.eqb c sep then EmptyString :: split sep s'
      else match split sep s' with
           | w :: ws => String c w :: ws
           | [] => [String c EmptyString]
           end
  end.

(** [sep.join(l)] *)
Definition join (sep : string) (l : list string) : string := String.concat sep l.

(** [sep * n] *)
Fixpoint repeat_str (sep : string) (n : nat) : string :=
  match n with
  | O => EmptyString
  | S n' => sep +:+ repeat_str sep n'
  end.

(** [l[i]] with Python's negative indices; out of range raises. *)
Definition index {A} (l : list A) (i : Z) : Exn + A :=
  let n := Z.of_nat (length l) in
  let j := if i <? 0 then i + n else i in
  if (j <? 0) || (n <=? j) then inl IndexError
  else match l !! Z.to_nat j with
       | Some x => inr x
       | None => inl IndexError
       end.

(** [range(0, n)] *)
Definition range0 (n : Z) : list Z := map Z.of_nat (seq 0 (Z.to_nat n)).

End Py.

(** ** [os.path] on POSIX, as the script uses it *)

Module posixpath.

Definition isabs (p : string) : bool := Py.startswith p "/".

(** [os.path.join(a, p)] for two components. *)
Definition join (a p : string) : string :=
  if Py.startswith p "/" then p
  else if String.eqb a "" || Py.endswith a "/" then a +:+ p
  else a +:+ "/" +:+ p.

(** One step of the component loop of [normpath]. *)
Definition norm_comp (initial_slashes : nat) (new_comps : list string)
    (comp : string) : list string :=
  if String.eqb comp "" || String.eqb comp "." then new_comps
  else if negb (String.eqb comp "..")
          || ((initial_slashes =? 0)%nat && (length new_comps =? 0)%nat)
          || match last new_comps with
             | Some l => String.eqb l ".."
             | None => false
             end
       then new_comps ++ [comp]
       else removelast new_comps.

Definition normpath (path : string) : string :=
  if String.eqb path "" then "."
  else
    let initial_slashes : nat :=
      if Py.startswith path "/" then
        if Py.startswith path "//" && negb (Py.startswith path "///")
        then 2%nat else 1%nat
      else 0%nat in
    let comps := Py.split "/" path in
    let new_comps := fold_left (norm_comp initial_slashes) comps [] in
    let path := Py.join "/" new_comps in
    let path := Py.repeat_str "/" initial_slashes +:+ path in
    if String.eqb path "" then "." else path.

(** [os.path.abspath(path)], with [cwd] the result of [os.getcwd()]. *)
Definition abspath (cwd path : string) : string :=
  normpath (if isabs path then path else join cwd path).

(** [os.path.split(p)] *)
Definition split (p : string) : string * string :=
  let tail := default EmptyString (last (Py.split "/" p)) in
  let i := (String.length p - String.length tail)%nat in
  let head := substring 0 i p in
  let head :=
    if negb (String.eqb head "")
       && negb (String.eqb head (Py.repeat_str "/" (String.length head)))
    then Py.rstrip_char "/" head else head in
  (head, tail).

End posixpath.

(** ** The outside world *)

Inductive FileKind := Missing | RegularFile | Directory | OtherFile.

(** What happens when [runCommand] is called on a command line.  The call
    can raise: [shlex.split] raises [ValueError] on a command line it cannot
    split and [subprocess.Popen] raises [OSError], both before any process
    exists ([Raised false]); [decode] raises [UnicodeDecodeError] on the
    output of a process that has run ([Raised true]).  Otherwise the call
    returns the return code of the process and its decoded output. *)
Inductive RunResult :=
| Raised (started : bool) (e : Py.Exn)
| Completed (returncode : Z) (stdout stderr : string).

(** Everything the script reads from its environment.  [kind] is the file
    system as [os.path] sees it, [runCommand_result] is what a call of
    [runCommand] on a command line leads to, and [pick round pos] decides
    which of the workers that can move takes step number [pos] of round
    [round]. *)
Record Env := {
  hostname : string;
  cwd : string;
  cpu_count : Z;
  kind : string -> FileKind;
  runCommand_result : string -> RunResult;
  pick : nat -> nat -> nat
}.

(** The parsed command line: [-d] and [-p]. *)
Record Args := {
  args_destinations : string;
  args_path : string
}.

Definition RSYNC_EXE : string := "/usr/bin/rsync".
Definition SSH_EXE : string := "/usr/bin/ssh".

Definition isdir (env : Env) (p : string) : bool :=
  match kind env p with Directory => true | _ => false end.
Definition isfile (env : Env) (p : string) : bool :=
  match kind env p with RegularFile => true | _ => false end.
Definition exists_ (env : Env) (p : string) : bool :=
  match kind env p with Missing => false | _ => true end.

(** ** [die], [checkDir], [checkExe] *)

(** [die] logs the message at error level and leaves with [sys.exit(1)]. *)
Record Fatal := { logged : string; code : Z }.

Definition die {A} (msg : string) : Fatal + A :=
  inl {| logged := msg; code := 1 |}.

Definition checkDir (env : Env) (d : string) : Fatal + unit :=
  if negb (isdir env d) then die "%d is not a directory" else inr tt.

Definition checkExe (env : Env) (e : string) : Fatal + unit :=
  if negb (exists_ env e) then die "%s does not exist" else inr tt.

(** ** [runCommand] and [CommandTask] *)

Definition runCommand (env : Env) (cmd : string) : Py.Exn + Z * string * string :=
  match runCommand_result env cmd with
  | Raised _ e => inl e
  | Completed returncode stdout stderr => inr (returncode, stdout, stderr)
  end.

(** A process was started for the command line: [runCommand] got past
    [subprocess.Popen]. *)
Definition started (env : Env) (cmd : string) : bool :=
  match runCommand_result env cmd with
  | Raised b _ => b
  | Completed _ _ _ => true
  end.

(** [CommandTask.__init__]: the command is kept in [self.__command], that is
    in the attribute [_CommandTask__command]. *)
Definition CommandTask_init (command : string) : gmap string Py.PyVal :=
  {[ Py.mangle "CommandTask" "__command" := Py.VStr command ]}.

(** [CommandTask.run] *)
Definition CommandTask_run (env : Env) (self : gmap string Py.PyVal) : Py.Exn + Z :=
  match Py.getattr self (Py.mangle "CommandTask" "__command") with
  | inl e => inl e
  | inr (Py.VStr cmd) =>
      match runCommand env cmd with
      | inl e => inl e
      | inr (rtn, _, _) => inr rtn
      end
  | inr _ => inl Py.TypeError
  end.

(** The command lines a task hands to [runCommand] when it is run. *)
Definition command_of (task : gmap string Py.PyVal) : list string :=
  match task !! Py.mangle "CommandTask" "__command" with
  | Some (Py.VStr cmd) => [cmd]
  | _ => []
  end.

(** Of these, the ones for which a process is started, and the ones for
    which [runCommand] raises before that. *)
Definition started_commands (env : Env) (task : gmap string Py.PyVal) : list string :=
  List.filter (started env) (command_of task).

Definition refused_commands (env : Env) (task : gmap string Py.PyVal) : list string :=
  List.filter (fun cmd => negb (started env cmd)) (command_of task).

(** ** [CommandProcess] *)

(** What [multiprocessing.Process.__init__] leaves in the instance, as far as
    the script reads it: the [name] property returns [_name].  The base class
    stores single-underscore attributes only. *)
Definition Process_init : gmap string Py.PyVal :=
  {[ "_name" := Py.VStr "CommandProcess" ]}.

(** [CommandProcess.__init__] *)
Definition CommandProcess_init : gmap string Py.PyVal :=
  <[ Py.mangle "CommandProcess" "__ok" := Py.VBool true ]>
    (<[ Py.mangle "CommandProcess" "__taskQueue" := Py.VQueue ]> Process_init).

Inductive Status :=
| Running
| Exited
| Crashed (e : Py.Exn).

(** A worker process: its instance, whether it is still in its loop, and
    the entry that [get()] has returned to it and that it has not processed
    yet, if any. *)
Record Worker := {
  w_self : gmap string Py.PyVal;
  w_status : Status;
  w_held : option (option (gmap string Py.PyVal))
}.

Definition truthy (v : Py.PyVal) : bool :=
  match v with
  | Py.VBool b => b
  | Py.VStr s => negb (String.eqb s "")
  | Py.VQueue => true
  end.

(** One pass through the body of the [while True] loop of
    [CommandProcess.run], for the entry [task] that [get()] returned.
    [acks] counts the calls of [task_done], [ran] lists the command lines for
    which a process was started, [refused] those for which [runCommand]
    raised before that. *)
Record Body := {
  after : Worker;
  acks : Z;
  ran : list string;
  refused : list string
}.

Definition CommandProcess_run_body (env : Env) (self : gmap string Py.PyVal)
    (task : option (gmap string Py.PyVal)) : Body :=
  match task with
  | None =>
      match Py.getattr self "_name" with
      | inl e => {| after := {| w_self := self; w_status := Crashed e; w_held := None |};
                    acks := 0; ran := []; refused := [] |}
      | inr _ => {| after := {| w_self := self; w_status := Exited; w_held := None |};
                    acks := 1; ran := []; refused := [] |}
      end
  | Some t =>
      match Py.getattr self (Py.mangle "CommandProcess" "__ok") with
      | inl e => {| after := {| w_self := self; w_status := Crashed e; w_held := None |};
                    acks := 0; ran := []; refused := [] |}
      | inr ok =>
          if truthy ok then
            match CommandTask_run env t with
            | inl e =>
                {| after := {| w_self := self; w_status := Crashed e; w_held := None |};
                   acks := 0;
                   ran := started_commands env t;
                   refused := refused_commands env t |}
            | inr rtn =>
                if negb (rtn =? 0) then
                  match Py.getattr self (Py.mangle "CommandProcess" "__command") with
                  | inl e =>
                      {| after := {| w_self := self; w_status := Crashed e;
                                     w_held := None |};
                         acks := 0;
                         ran := started_commands env t;
                         refused := refused_commands env t |}
                  | inr _ =>
                      {| after := {| w_self := <[ Py.mangle "CommandProcess" "__ok"
                                                := Py.VBool false ]> self;
                                     w_status := Running; w_held := None |};
                         acks := 1;
                         ran := started_commands env t;
                         refused := refused_commands env t |}
                  end
                else
                  {| after := {| w_self := self; w_status := Running; w_held := None |};
                     acks := 1;
                     ran := started_commands env t;
                     refused := refused_commands env t |}
            end
          else {| after := {| w_self := self; w_status := Running; w_held := None |};
                  acks := 1; ran := []; refused := [] |}
      end
  end.

(** [CommandProcess.run] for one worker that dequeues every entry of [queue]
    itself.  The result carries what is left of the queue; a worker that finds
    the queue empty stays [Running]: it waits in [get()]. *)
Record WorkerRun := {
  wr_worker : Worker;
  wr_acks : Z;
  wr_ran : list string;
  wr_refused : list string;
  wr_queue : list (option (gmap string Py.PyVal))
}.

Fixpoint CommandProcess_run (env : Env) (self : gmap string Py.PyVal)
    (queue : list (option (gmap string Py.PyVal))) : WorkerRun :=
  match queue with
  | [] => {| wr_worker := {| w_self := self; w_status := Running; w_held := None |};
             wr_acks := 0; wr_ran := []; wr_refused := []; wr_queue := [] |}
  | task :: queue' =>
      let b := CommandProcess_run_body env self task in
      match w_status (after b) with
      | Running =>
          let r := CommandProcess_run env (w_self (after b)) queue' in
          {| wr_worker := wr_worker r; wr_acks := acks b + wr_acks r;
             wr_ran := ran b ++ wr_ran r; wr_refused := refused b ++ wr_refused r;
             wr_queue := wr_queue r |}
      | _ => {| wr_worker := after b; wr_acks := acks b; wr_ran := ran b;
                wr_refused := refused b; wr_queue := queue' |}
      end
  end.

(** ** The pool of one round *)

(** The workers of a round share one [JoinableQueue].  [unfinished] is the
    counter of that queue (entries put and not yet acknowledged with
    [task_done]), [executed] lists the command lines for which a process was
    started, in the order of the starts, and [never_started] those that were
    dequeued and for which [runCommand] raised before a process existed. *)
Record Pool := {
  workers : list Worker;
  unfinished : Z;
  executed : list string;
  never_started : list string
}.

Definition running (w : Worker) : bool :=
  match w_status w with Running => true | _ => false end.

(** A worker can move when it is in its loop and either holds an entry, which
    it then processes, or finds an entry in the queue ([more]), which it then
    takes; with an empty queue it waits in [get()]. *)
Definition can_step (more : bool) (w : Worker) : bool :=
  running w && match w_held w with Some _ => true | None => more end.

(** Positions of the workers that satisfy [f]. *)
Fixpoint positions (f : Worker -> bool) (k : nat) (ws : list Worker) : list nat :=
  match ws with
  | [] => []
  | w :: ws' => if f w then k :: positions f (S k) ws' else positions f (S k) ws'
  end.

Definition nonempty {A} (l : list A) : bool :=
  match l with [] => false | _ :: _ => true end.

(** One move of the worker [w] at position [k]: with an entry in hand it
    runs the loop body on it; otherwise it takes the first entry of the
    queue. *)
Definition pool_step (env : Env) (k : nat) (w : Worker) (p : Pool)
    (queue : list (option (gmap string Py.PyVal)))
    : Pool * list (option (gmap string Py.PyVal)) :=
  match w_held w with
  | Some entry =>
      let b := CommandProcess_run_body env (w_self w) entry in
      ({| workers := <[ k := after b ]> (workers p);
          unfinished := unfinished p - acks b;
          executed := executed p ++ ran b;
          never_started := never_started p ++ refused b |},
       queue)
  | None =>
      match queue with
      | [] => (p, queue)
      | entry :: queue' =>
          ({| workers := <[ k := {| w_self := w_self w; w_status := w_status w;
                                    w_held := Some entry |} ]> (workers p);
              unfinished := unfinished p;
              executed := executed p;
              never_started := never_started p |},
           queue')
      end
  end.

(** The workers are processes of their own: they take the entries of the
    queue in its order (it is first-in first-out and has one producer), but
    which worker takes an entry, and in which order the workers that hold an
    entry process it, is up to [pick].  A pass through the loop body touches
    the worker's own state and the counter of the queue only, so it is one
    move here, placed where the process of its command is started: no order
    of the starts is lost.  The run goes on while some worker can move;
    [fuel] bounds the number of moves (two per entry are enough). *)
Fixpoint pool_run (env : Env) (round fuel pos : nat) (p : Pool)
    (queue : list (option (gmap string Py.PyVal)))
    : Pool * list (option (gmap string Py.PyVal)) :=
  match fuel with
  | O => (p, queue)
  | S fuel' =>
      match positions (can_step (nonempty queue)) 0 (workers p) with
      | [] => (p, queue)
      | k0 :: ks =>
          let k := nth (pick env round pos mod length (k0 :: ks))%nat (k0 :: ks) k0 in
          match workers p !! k with
          | None => (p, queue)
          | Some w =>
              let '(p', queue') := pool_step env k w p queue in
              pool_run env round fuel' (S pos) p' queue'
          end
      end
  end.

(** [p.join()] for every process returns once no worker is running. *)
Definition joined (p : Pool) : bool := forallb (fun w => negb (running w)) (workers p).

(** ** The rounds *)

(** The variables of the [while] loop. *)
Record State := {
  hostsCopiedTo : Z;
  i : Z;
  copies : Z
}.

(** What the [for h in range(0, remaining)] loop has built so far. *)
Record Plan := {
  plan_hostsCopiedTo : Z;
  plan_processes : list Worker;
  plan_tasks : list (gmap string Py.PyVal);
  plan_pairs : list (Z * Z)
}.

(** The command line ["%s %s %s -av %s %s:%s"]. *)
Definition copy_command (src sourcePath hostToAdd destPath : string) : string :=
  SSH_EXE +:+ " " +:+ src +:+ " " +:+ RSYNC_EXE +:+ " -av " +:+ sourcePath
  +:+ " " +:+ hostToAdd +:+ ":" +:+ destPath.

Fixpoint plan_for (destinations : list string) (hostTotal processTotal copies : Z)
    (sourcePath destPath : string) (hs : list Z) (pl : Plan) : Py.Exn + Plan :=
  match hs with
  | [] => inr pl
  | h :: hs' =>
      if hostTotal <=? h + copies then inr pl
      else
        let processes :=
          if h <? processTotal
          then plan_processes pl
               ++ [{| w_self := CommandProcess_init; w_status := Running;
                      w_held := None |}]
          else plan_processes pl in
        match Py.index destinations (h + copies) with
        | inl e => inl e
        | inr hostToAdd =>
            match Py.index destinations h with
            | inl e => inl e
            | inr src =>
                plan_for destinations hostTotal processTotal copies sourcePath destPath hs'
                  {| plan_hostsCopiedTo := plan_hostsCopiedTo pl + 1;
                     plan_processes := processes;
                     plan_tasks := plan_tasks pl
                       ++ [CommandTask_init (copy_command src sourcePath hostToAdd destPath)];
                     plan_pairs := plan_pairs pl ++ [(h, h + copies)] |}
            end
        end
  end.

(** One completed pass of the [while] loop. *)
Record Round := {
  round_copies : Z;
  round_pairs : list (Z * Z);
  round_commands : list string;
  round_pool : Pool;
  round_left : list (option (gmap string Py.PyVal));
  round_after : State
}.

(** How the process ends. *)
Inductive Final :=
| Finished
| SystemExit (f : Fatal)
| Traceback (e : Py.Exn)
| Blocked
| OutOfFuel.

Record Run := {
  final : Final;
  rounds : list Round
}.

(** The exit status of the process: [0] when the script runs to its end, the
    argument of [sys.exit], [1] after an uncaught exception. *)
Definition exit_status (f : Final) : option Z :=
  match f with
  | Finished => Some 0
  | SystemExit f => Some (code f)
  | Traceback _ => Some 1
  | Blocked => None
  | OutOfFuel => None
  end.

(** The messages logged at error level by the main process. *)
Definition error_log (f : Final) : list string :=
  match f with
  | SystemExit f => [logged f]
  | _ => []
  end.

(** The [while hostsCopiedTo < hostTotal] loop; [fuel] bounds the number of
    passes. *)
Fixpoint sync_loop (fuel : nat) (env : Env) (destinations : list string)
    (hostTotal processTotal : Z) (sourcePath destPath : string)
    (st : State) (past : list Round) : Run :=
  if hostsCopiedTo st <? hostTotal then
    match fuel with
    | O => {| final := OutOfFuel; rounds := past |}
    | S fuel' =>
        let remaining := hostTotal - hostsCopiedTo st in
        let copies := if remaining <? copies st then remaining else copies st in
        match plan_for destinations hostTotal processTotal copies sourcePath destPath
                (Py.range0 remaining)
                {| plan_hostsCopiedTo := hostsCopiedTo st; plan_processes := [];
                   plan_tasks := []; plan_pairs := [] |} with
        | inl e => {| final := Traceback e; rounds := past |}
        | inr pl =>
            let queue := map Some (plan_tasks pl) ++ map (fun _ => None) (plan_processes pl) in
            let '(pool, rest) :=
              pool_run env (length past) (2 * length queue) 0
                {| workers := plan_processes pl;
                   unfinished := Z.of_nat (length queue);
                   executed := [];
                   never_started := [] |}
                queue in
            let st' := {| hostsCopiedTo := plan_hostsCopiedTo pl;
                          i := i st + 1;
                          copies := 2 ^ (i st + 1) |} in
            let r := {| round_copies := copies;
                        round_pairs := plan_pairs pl;
                        round_commands := flat_map command_of (plan_tasks pl);
                        round_pool := pool;
                        round_left := rest;
                        round_after := st' |} in
            if joined pool
            then sync_loop fuel' env destinations hostTotal processTotal
                   sourcePath destPath st' (past ++ [r])
            else {| final := Blocked; rounds := past ++ [r] |}
        end
    end
  else {| final := Finished; rounds := past |}.

(** ** The main program *)

(** The roster: [destinations = [hostname]], then every entry of the [-d]
    list that differs from [hostname], stripped. *)
Definition build_destinations (hostname : string) (arg : string) : list string :=
  fold_left
    (fun destinations d =>
       if negb (String.eqb d hostname) then destinations ++ [Py.strip d] else destinations)
    (Py.split "," arg) [hostname].

(** The source and destination path strings: [(sourcePath, destPath)]. *)
Definition normalize_paths (env : Env) (path : string) : Fatal + (string * string) :=
  let sourcePath := posixpath.abspath (cwd env) (Py.strip path) in
  if Py.endswith sourcePath "/*" then
    let destPath := Py.drop_last sourcePath in
    match checkDir env destPath with
    | inl f => inl f
    | inr _ => inr (sourcePath, destPath)
    end
  else if Py.endswith sourcePath "/" then
    let destPath := sourcePath in
    let sourcePath := Py.drop_last sourcePath in
    match checkDir env sourcePath with
    | inl f => inl f
    | inr _ => inr (sourcePath, destPath)
    end
  else if isdir env sourcePath then inr (sourcePath, fst (posixpath.split sourcePath))
  else if isfile env sourcePath then inr (sourcePath, sourcePath)
  else die "source path is not a file or directory".

Definition initial_state : State := {| hostsCopiedTo := 1; i := 0; copies := 1 |}.

Definition main (env : Env) (args : Args) : Run :=
  match checkExe env RSYNC_EXE with
  | inl f => {| final := SystemExit f; rounds := [] |}
  | inr _ =>
      match checkExe env SSH_EXE with
      | inl f => {| final := SystemExit f; rounds := [] |}
      | inr _ =>
          let destinations := build_destinations (hostname env) (args_destinations args) in
          let processTotal := cpu_count env * 2 in
          let hostTotal := Z.of_nat (length destinations) in
          match normalize_paths env (args_path args) with
          | inl f => {| final := SystemExit f; rounds := [] |}
          | inr (sourcePath, destPath) =>
              sync_loop (length destinations) env destinations hostTotal processTotal
                sourcePath destPath initial_state []
          end
      end
  end.

(** The command lines executed during a run, round by round. *)
Definition commands_executed (r : Run) : list string :=
  flat_map (fun rd => executed (round_pool rd)) (rounds r).

(** ** Predicates used in the statements *)

(** Number of poison pills in a queue. *)
Fixpoint sentinels (queue : list (option (gmap string Py.PyVal))) : nat :=
  match queue with
  | [] => 0
  | None :: queue' => S (sentinels queue')
  | Some _ :: queue' => sentinels queue'
  end.


(** A pair [(h, d)] of a round planned with step [c] on a roster of [n] hosts:
    both indices are positions of the roster and [d] is [h + c]. *)
Definition pair_ok (n c : Z) (hd : Z * Z) : Prop :=
  0 <= fst hd /\ snd hd = fst hd + c /\ fst hd < snd hd /\ snd hd < n.

(** The rounds [rds] run from the state [st] on a roster of [n] hosts: every
    round starts with hosts left, schedules at least one pair, counts one host
    per pair, stays within [n], and the last state has all [n] hosts. *)
Fixpoint rounds_from (n : Z) (st : State) (rds : list Round) : Prop :=
  match rds with
  | [] => hostsCopiedTo st = n
  | rd :: rds' =>
      hostsCopiedTo st < n
      /\ round_pairs rd <> []
      /\ Forall (pair_ok n (round_copies rd)) (round_pairs rd)
      /\ hostsCopiedTo (round_after rd)
         = hostsCopiedTo st + Z.of_nat (length (round_pairs rd))
      /\ hostsCopiedTo (round_after rd) <= n
      /\ joined (round_pool rd) = true
      /\ rounds_from n (round_after rd) rds'
  end.

(** The path whose kind the script tests: the absolute source path, without
    the last character when it ends in [/*] or [/]. *)
Definition checked_path (env : Env) (path : string) : string :=
  let sourcePath := posixpath.abspath (cwd env) (Py.strip path) in
  if Py.endswith sourcePath "/*" || Py.endswith sourcePath "/"
  then Py.drop_last sourcePath else sourcePath.

(** The states the loop goes through: the one it starts in, then the one
    after each round. *)
Definition states_of (st : State) (rds : list Round) : list State :=
  st :: map round_after rds.

(** A small world used to run the script on concrete inputs: host [h0], both
    executables installed, a directory [/a/b] and a regular file [/a/f];
    every external command returns [rc]. *)
Definition demo_kind (p : string) : FileKind :=
  if String.eqb p RSYNC_EXE || String.eqb p SSH_EXE || String.eqb p "/a/f" then RegularFile
  else if String.eqb p "/" || String.eqb p "/a" || String.eqb p "/a/b"
          || String.eqb p "/a/b/"
       then Directory
       else Missing.

Definition demo_env (rc : Z) : Env :=
  {| hostname := "h0"; cwd := "/home/u"; cpu_count := 2; kind := demo_kind;
     runCommand_result := fun _ => Completed rc "" ""; pick := fun _ _ => 0%nat |}.

(** The same world without rsync. *)
Definition demo_env_no_rsync : Env :=
  {| hostname := "h0"; cwd := "/home/u"; cpu_count := 2;
     kind := fun p => if String.eqb p RSYNC_EXE then Missing else demo_kind p;
     runCommand_result := fun _ => Completed 0 "" ""; pick := fun _ _ => 0%nat |}.

(** Command lines used below. *)
Definition args_one_destination : Args :=
  {| args_destinations := "h1"; args_path := "/a/f" |}.

Definition args_no_destination : Args :=
  {| args_destinations := ""; args_path := "/a/b" |}.

Definition five_hosts : list string := ["h0"; "h1"; "h2"; "h3"; "h4"].

Definition three_hosts : list string := ["h0"; "h1"; "h2"].

(** ** Quantities of a round, used in the further properties *)

Definition crashed (w : Worker) : bool :=
  match w_status w with Crashed _ => true | _ => false end.

Definition exited (w : Worker) : bool :=
  match w_status w with Exited => true | _ => false end.

(** Number of elements of [l] that satisfy [f]. *)
Fixpoint count_if {A} (f : A -> bool) (l : list A) : nat :=
  match l with
  | [] => 0
  | x :: l' => if f x then S (count_if f l') else count_if f l'
  end.

(** The worker that runs the command dies of it: [runCommand] raises, or
    the command returns a nonzero code. *)
Definition failing (env : Env) (cmd : string) : bool :=
  match runCommand env cmd with
  | inr (rtn, _, _) => negb (rtn =? 0)
  | inl _ => true
  end.

(** The exception the worker dies of, for a command with [failing]. *)
Definition death (env : Env) (cmd : string) : Py.Exn :=
  match runCommand env cmd with
  | inr _ => Py.AttributeError "_CommandProcess__command"
  | inl e => e
  end.

(** The command lines of the tasks the workers hold. *)
Definition held_commands (ws : list Worker) : list string :=
  flat_map (fun w => match w_held w with
                     | Some (Some t) => command_of t
                     | _ => []
                     end) ws.

Definition holding (w : Worker) : bool :=
  match w_held w with Some _ => true | None => false end.

Definition holding_pill (w : Worker) : bool :=
  match w_held w with Some None => true | _ => false end.

(** The command lines of the tasks of a queue, in order. *)
Definition queue_commands (queue : list (option (gmap string Py.PyVal))) : list string :=
  flat_map (fun entry => match entry with Some t => command_of t | None => [] end) queue.

(** The queue the main process fills in a round: the tasks, then one poison
    pill per process. *)
Definition round_queue (pl : Plan) : list (option (gmap string Py.PyVal)) :=
  map Some (plan_tasks pl) ++ map (fun _ => None) (plan_processes pl).

(** The step the loop uses in a pass that starts in [st]. *)
Definition clamped_copies (hostTotal : Z) (st : State) : Z :=
  if hostTotal - hostsCopiedTo st <? copies st
  then hostTotal - hostsCopiedTo st else copies st.

(** The record the loop keeps of the pass number [round] that starts in [st]
    and has planned [pl]. *)
Definition round_of (env : Env) (round : nat) (hostTotal : Z) (st : State) (pl : Plan)
    : Round :=
  let pr := pool_run env round (2 * length (round_queue pl)) 0
              {| workers := plan_processes pl;
                 unfinished := Z.of_nat (length (round_queue pl));
                 executed := [];
                 never_started := [] |}
              (round_queue pl) in
  {| round_copies := clamped_copies hostTotal st;
     round_pairs := plan_pairs pl;
     round_commands := flat_map command_of (plan_tasks pl);
     round_pool := fst pr;
     round_left := snd pr;
     round_after := {| hostsCopiedTo := plan_hostsCopiedTo pl;
                       i := i st + 1;
                       copies := 2 ^ (i st + 1) |} |}.

(** A worker as [CommandProcess(tasks)] creates it. *)
Definition fresh_worker : Worker :=
  {| w_self := CommandProcess_init; w_status := Running; w_held := None |}.

(** The world of [demo_env 0] in which [shlex.split] rejects the command
    line [c2] and the output of [c3], which returns [0], cannot be decoded. *)
Definition demo_env_raising : Env :=
  {| hostname := "h0"; cwd := "/home/u"; cpu_count := 2; kind := demo_kind;
     runCommand_result :=
       fun cmd => if String.eqb cmd "c2" then Raised false Py.ValueError
                  else if String.eqb cmd "c3" then Raised true Py.UnicodeDecodeError
                  else Completed 0 "" "";
     pick := fun _ _ => 0%nat |}.

(** The world of [demo_env 0] with a scheduler under which, of two workers,
    the first takes the first entry and the second is the first to process
    the entry it took. *)
Definition demo_env_interleaved : Env :=
  {| hostname := "h0"; cwd := "/home/u"; cpu_count := 2; kind := demo_kind;
     runCommand_result := fun _ => Completed 0 "" "";
     pick := fun _ pos => match pos with 1%nat | 2%nat => 1%nat | _ => 0%nat end |}.

(** The last character of a string. *)
Fixpoint last_char (s : string) : option ascii :=
  match s with
  | EmptyString => None
  | String c s' => match last_char s' with
                   | None => Some c
                   | Some d => Some d
                   end
  end.


(** ** What every state of a round's pool satisfies *)

(** A queue entry as the main loop puts it: a task built by [CommandTask],
    or a poison pill. *)
Definition task_entry (entry : option (gmap string Py.PyVal)) : Prop :=
  match entry with
  | Some t => exists cmd, t = CommandTask_init cmd
  | None => True
  end.

(** A worker of a round whose tasks carry the command lines [cmds]: it is as
    [CommandProcess] built it; while it runs it holds nothing or an entry of
    the queue; once it has ended it holds nothing, and if it died, it died of
    a command of the round, of the exception that command leads to. *)
Definition worker_ok (env : Env) (cmds : list string) (w : Worker) : Prop :=
  w_self w = CommandProcess_init
  /\ match w_status w with
     | Running => match w_held w with Some entry => task_entry entry | None => True end
     | Exited => w_held w = None
     | Crashed e =>
         w_held w = None
         /\ exists cmd, In cmd cmds /\ failing env cmd = true /\ e = death env cmd
     end.

(** Number of times [cmd] occurs in [l]. *)
Definition occ (cmd : string) (l : list string) : nat := count_occ string_dec l cmd.

(** The state [(p, queue)] of the pool of a round with [total] workers whose
    tasks carry the command lines [cmds]: every command line is in exactly
    one place (run, refused, held by a worker, or still queued); the counter
    of the queue stands at the entries not yet acknowledged; the workers that
    died are as many as the commands that made a worker die; and there is
    one pill, taken or queued, for each worker that has not left on one. *)
Definition pool_inv (env : Env) (cmds : list string) (total : nat)
    (p : Pool) (queue : list (option (gmap string Py.PyVal))) : Prop :=
  Forall (worker_ok env cmds) (workers p)
  /\ Forall task_entry queue
  /\ length (workers p) = total
  /\ (forall cmd,
        (occ cmd (executed p) + occ cmd (never_started p)
         + occ cmd (held_commands (workers p)) + occ cmd (queue_commands queue)
         = occ cmd cmds)%nat)
  /\ Forall (fun cmd => started env cmd = true) (executed p)
  /\ Forall (fun cmd => started env cmd = false) (never_started p)
  /\ unfinished p
     = Z.of_nat (length queue + count_if holding (workers p)
                 + count_if crashed (workers p))
  /\ count_if crashed (workers p)
     = count_if (failing env) (executed p ++ never_started p)
  /\ (count_if exited (workers p) + count_if holding_pill (workers p)
      + sentinels queue = total)%nat.

(** * Lemmas and theorems *)

(** ** Counting *)

Lemma count_if_insert {A} (f : A -> bool) (l : list A) (k : nat) (x y : A) :
  l !! k = Some x ->
  (count_if f (<[ k := y ]> l) + (if f x then 1 else 0)
   = count_if f l + (if f y then 1 else 0))%nat.
Proof.
  revert k. induction l as [|z l IH]; intros k Hk; [discriminate|].
  destruct k as [|k]; simpl in *.
  - injection Hk as ->. destruct (f x), (f y); lia.
  - specialize (IH k Hk). destruct (f z); lia.
Qed.

Lemma count_if_app {A} (f : A -> bool) (l1 l2 : list A) :
  count_if f (l1 ++ l2) = (count_if f l1 + count_if f l2)%nat.
Proof. induction l1 as [|x l1 IH]; simpl; [reflexivity|]. destruct (f x); lia. Qed.

Lemma count_if_none {A} (f : A -> bool) (l : list A) :
  (forall x, In x l -> f x = false) -> count_if f l = 0%nat.
Proof.
  induction l as [|x l IH]; intros Hf; simpl; [reflexivity|].
  rewrite (Hf x) by (left; reflexivity). apply IH. intros y Hy. apply Hf. right. exact Hy.
Qed.

Lemma count_if_zero {A} (f : A -> bool) (l : list A) :
  count_if f l = 0%nat -> forall x, In x l -> f x = false.
Proof.
  induction l as [|y l IH]; simpl; intros Hc x Hin; [contradiction|].
  destruct (f y) eqn:E; [discriminate|]. destruct Hin as [<- | Hin]; [exact E | exact (IH Hc x Hin)].
Qed.

Lemma sentinels_app (q1 q2 : list (option (gmap string Py.PyVal))) :
  sentinels (q1 ++ q2) = (sentinels q1 + sentinels q2)%nat.
Proof.
  induction q1 as [|[t|] q1 IH]; simpl; [reflexivity | exact IH | now rewrite IH].
Qed.

Lemma sentinels_queue (ts : list (gmap string Py.PyVal)) (ps : list Worker) :
  sentinels (map Some ts ++ map (fun _ => None) ps) = length ps.
Proof.
  induction ts as [|t ts IH]; simpl; [|exact IH].
  induction ps as [|p ps IHp]; simpl; [reflexivity | now rewrite IHp].
Qed.

(** ** The workers that can move *)

Lemma positions_lookup (f : Worker -> bool) (ws : list Worker) (k j : nat) :
  In j (positions f k ws) ->
  (k <= j)%nat /\ exists w, ws !! (j - k)%nat = Some w /\ f w = true.
Proof.
  revert k. induction ws as [|w ws IH]; intros k Hin; simpl in Hin; [contradiction|].
  destruct (f w) eqn:Hw.
  - destruct Hin as [<- | Hin].
    + split; [lia|]. exists w. rewrite Nat.sub_diag. split; [reflexivity | exact Hw].
    + destruct (IH _ Hin) as (Hle & w' & Hl & Hr).
      split; [lia|]. exists w'. split; [|exact Hr].
      replace (j - k)%nat with (S (j - S k)) by lia. exact Hl.
  - destruct (IH _ Hin) as (Hle & w' & Hl & Hr).
    split; [lia|]. exists w'. split; [|exact Hr].
    replace (j - k)%nat with (S (j - S k)) by lia. exact Hl.
Qed.

Lemma positions_nil (f : Worker -> bool) (ws : list Worker) (k : nat) :
  positions f k ws = [] -> forall w, In w ws -> f w = false.
Proof.
  revert k. induction ws as [|v ws IH]; intros k Hnil w Hin; [contradiction|].
  simpl in Hnil. destruct (f v) eqn:Hv; [discriminate|].
  destruct Hin as [<- | Hin]; [exact Hv | exact (IH _ Hnil w Hin)].
Qed.

(** ** The loop body of a worker *)

Lemma run_body_held (env : Env) (self : gmap string Py.PyVal)
    (entry : option (gmap string Py.PyVal)) :
  w_held (after (CommandProcess_run_body env self entry)) = None.
Proof.
  unfold CommandProcess_run_body. destruct entry as [t|].
  - destruct (Py.getattr self _); [reflexivity|]. destruct (truthy _); [|reflexivity].
    destruct (CommandTask_run env t); [reflexivity|].
    destruct (negb _); [|reflexivity]. destruct (Py.getattr self _); reflexivity.
  - destruct (Py.getattr self _); reflexivity.
Qed.

Lemma command_of_init (cmd : string) : command_of (CommandTask_init cmd) = [cmd].
Proof. reflexivity. Qed.

Lemma run_body_pill (env : Env) :
  CommandProcess_run_body env CommandProcess_init None
  = {| after := {| w_self := CommandProcess_init; w_status := Exited; w_held := None |};
       acks := 1; ran := []; refused := [] |}.
Proof. reflexivity. Qed.

(** The body on a task built by [CommandTask], in a worker as
    [CommandProcess] creates it: a command that completes with code [0] is
    acknowledged and the worker goes on; otherwise the worker dies, of the
    exception [runCommand] raised or of the [AttributeError] of its own
    failure branch, and the task is not acknowledged. *)
Lemma run_body_task (env : Env) (cmd : string) :
  CommandProcess_run_body env CommandProcess_init (Some (CommandTask_init cmd))
  = if failing env cmd
    then {| after := {| w_self := CommandProcess_init;
                        w_status := Crashed (death env cmd); w_held := None |};
            acks := 0;
            ran := if started env cmd then [cmd] else [];
            refused := if started env cmd then [] else [cmd] |}
    else {| after := fresh_worker; acks := 1; ran := [cmd]; refused := [] |}.
Proof.
  unfold CommandProcess_run_body.
  change (Py.getattr CommandProcess_init (Py.mangle "CommandProcess" "__ok"))
    with (@inr Py.Exn _ (Py.VBool true)).
  cbn [truthy]. unfold CommandTask_run.
  change (Py.getattr (CommandTask_init cmd) (Py.mangle "CommandTask" "__command"))
    with (@inr Py.Exn _ (Py.VStr cmd)).
  cbv beta iota. unfold started_commands, refused_commands, failing, death.
  rewrite command_of_init. cbn [List.filter]. unfold started, runCommand.
  destruct (runCommand_result env cmd) as [b e | rtn out err].
  - destruct b; reflexivity.
  - cbn [negb]. destruct (negb (rtn =? 0)); [|reflexivity].
    change (Py.getattr CommandProcess_init (Py.mangle "CommandProcess" "__command"))
      with (@inl Py.Exn Py.PyVal (Py.AttributeError "_CommandProcess__command")).
    reflexivity.
Qed.

(** ** The run of a pool *)

Lemma pool_run_S (env : Env) (round fuel pos : nat) (p : Pool)
    (queue : list (option (gmap string Py.PyVal))) :
  pool_run env round (S fuel) pos p queue
  = match positions (can_step (nonempty queue)) 0 (workers p) with
    | [] => (p, queue)
    | k0 :: ks =>
        match workers p !! nth (pick env round pos mod length (k0 :: ks))%nat (k0 :: ks) k0 with
        | None => (p, queue)
        | Some w =>
            pool_run env round fuel (S pos)
              (fst (pool_step env (nth (pick env round pos mod length (k0 :: ks))%nat
                                     (k0 :: ks) k0) w p queue))
              (snd (pool_step env (nth (pick env round pos mod length (k0 :: ks))%nat
                                     (k0 :: ks) k0) w p queue))
        end
    end.
Proof.
  cbn [pool_run]. destruct (positions _ 0 (workers p)) as [|k0 ks]; [reflexivity|].
  cbv zeta. destruct (workers p !! _) as [w|]; [|reflexivity].
  destruct (pool_step env _ w p queue) as [p' q']. reflexivity.
Qed.

(** What holds before a run and is kept by every move holds after the run. *)
Lemma pool_run_inv (env : Env)
    (I : Pool -> list (option (gmap string Py.PyVal)) -> Prop) :
  (forall p queue k w,
      I p queue -> workers p !! k = Some w -> can_step (nonempty queue) w = true ->
      I (fst (pool_step env k w p queue)) (snd (pool_step env k w p queue))) ->
  forall fuel round pos p queue,
    I p queue ->
    I (fst (pool_run env round fuel pos p queue)) (snd (pool_run env round fuel pos p queue)).
Proof.
  intros Hstep. induction fuel as [|fuel IH]; intros round pos p queue HI; [exact HI|].
  rewrite pool_run_S.
  destruct (positions _ 0 (workers p)) as [|k0 ks] eqn:Hpos; [exact HI|].
  set (k := nth _ (k0 :: ks) k0).
  assert (Hin : In k (positions (can_step (nonempty queue)) 0 (workers p))).
  { rewrite Hpos. unfold k. apply nth_In. apply Nat.mod_upper_bound. discriminate. }
  destruct (positions_lookup _ _ _ _ Hin) as (_ & w & Hw & Hr).
  rewrite Nat.sub_0_r in Hw. rewrite Hw.
  apply IH. apply Hstep; assumption.
Qed.

(** Every move uses up one unit of [2 * length queue + workers holding an
    entry], so with that much fuel the run ends in a state where no worker
    can move. *)
Lemma pool_run_stuck (env : Env) :
  forall fuel round pos p queue,
    (2 * length queue + count_if holding (workers p) <= fuel)%nat ->
    forall w, In w (workers (fst (pool_run env round fuel pos p queue))) ->
      can_step (nonempty (snd (pool_run env round fuel pos p queue))) w = false.
Proof.
  induction fuel as [|fuel IH]; intros round pos p queue Hfuel w Hin.
  - cbn [pool_run fst snd] in *. destruct queue; [|simpl in Hfuel; lia].
    unfold can_step. cbn [nonempty].
    assert (Hh : holding w = false).
    { apply (count_if_zero holding (workers p)); [lia | exact Hin]. }
    unfold holding in Hh. destruct (w_held w); [discriminate|]. apply andb_false_r.
  - rewrite pool_run_S in Hin |- *.
    destruct (positions _ 0 (workers p)) as [|k0 ks] eqn:Hpos.
    { cbn [fst snd] in *. exact (positions_nil _ _ _ Hpos w Hin). }
    set (k := nth _ (k0 :: ks) k0) in *.
    assert (Hk : In k (positions (can_step (nonempty queue)) 0 (workers p))).
    { rewrite Hpos. unfold k. apply nth_In. apply Nat.mod_upper_bound. discriminate. }
    destruct (positions_lookup _ _ _ _ Hk) as (_ & v & Hv & Hcan).
    rewrite Nat.sub_0_r in Hv. rewrite Hv in Hin |- *.
    apply IH; [|exact Hin].
    unfold pool_step. unfold can_step in Hcan. apply andb_prop in Hcan.
    destruct Hcan as (_ & Hmove).
    destruct (w_held v) as [entry|] eqn:Hheld.
    + cbn [fst snd workers].
      pose proof (count_if_insert holding (workers p) k v
                    (after (CommandProcess_run_body env (w_self v) entry)) Hv) as Hc.
      assert (H1 : holding v = true) by (unfold holding; now rewrite Hheld).
      assert (H2 : holding (after (CommandProcess_run_body env (w_self v) entry)) = false)
        by (unfold holding; now rewrite run_body_held).
      rewrite H1, H2 in Hc. lia.
    + destruct queue as [|entry queue']; [discriminate|]. cbn [fst snd workers].
      pose proof (count_if_insert holding (workers p) k v
                    {| w_self := w_self v; w_status := w_status v; w_held := Some entry |}
                    Hv) as Hc.
      assert (H1 : holding v = false) by (unfold holding; now rewrite Hheld).
      rewrite H1 in Hc. change (holding _) with true in Hc.
      cbn [length] in *. lia.
Qed.
(** ** The state of a pool during a round *)

Lemma held_commands_insert (ws : list Worker) (k : nat) (w w' : Worker) (cmd : string) :
  ws !! k = Some w ->
  (occ cmd (held_commands [w]) + occ cmd (held_commands (<[ k := w' ]> ws))
   = occ cmd (held_commands [w']) + occ cmd (held_commands ws))%nat.
Proof.
  revert k. induction ws as [|v ws IH]; intros k Hk; [discriminate|].
  destruct k as [|k]; simpl in Hk.
  - injection Hk as ->. change (<[ 0%nat := w' ]> (w :: ws)) with (w' :: ws).
    unfold held_commands, occ. cbn [flat_map].
    rewrite !count_occ_app. cbn [count_occ]. lia.
  - specialize (IH k Hk).
    change (<[ S k := w' ]> (v :: ws)) with (v :: <[ k := w' ]> ws).
    unfold held_commands, occ in *.
    cbn [flat_map] in *. rewrite !count_occ_app in *.
    cbn [count_occ] in *. lia.
Qed.

Lemma held_commands_none (ws : list Worker) :
  Forall (fun w => w_held w = None) ws -> held_commands ws = [].
Proof.
  induction 1 as [|w ws Hw _ IH]; [reflexivity|].
  unfold held_commands in *. cbn [flat_map]. rewrite Hw, IH. reflexivity.
Qed.

Lemma failing_started (env : Env) (cmd : string) :
  failing env cmd = false -> started env cmd = true.
Proof.
  unfold failing, started, runCommand.
  destruct (runCommand_result env cmd) as [b e | rtn out err]; [discriminate | reflexivity].
Qed.

Lemma occ_cons (cmd c : string) (l : list string) :
  occ cmd (c :: l) = ((if string_dec c cmd then 1 else 0) + occ cmd l)%nat.
Proof. unfold occ. cbn [count_occ]. destruct (string_dec c cmd); reflexivity. Qed.

Lemma occ_app (cmd : string) (l1 l2 : list string) :
  occ cmd (l1 ++ l2) = (occ cmd l1 + occ cmd l2)%nat.
Proof. apply count_occ_app. Qed.

Lemma occ_In (cmd : string) (l : list string) : (0 < occ cmd l)%nat -> In cmd l.
Proof. intros H. apply (count_occ_In string_dec). exact H. Qed.

Ltac worker_counts Hk w' :=
  let H1 := fresh "Hn" in let H2 := fresh "Hn" in
  let H3 := fresh "Hn" in let H4 := fresh "Hn" in
  pose proof (count_if_insert holding _ _ _ w' Hk) as H1;
  pose proof (count_if_insert crashed _ _ _ w' Hk) as H2;
  pose proof (count_if_insert exited _ _ _ w' Hk) as H3;
  pose proof (count_if_insert holding_pill _ _ _ w' Hk) as H4;
  cbn [holding crashed exited holding_pill w_held w_status fresh_worker] in H1, H2, H3, H4.

Lemma occ_nil (cmd : string) : occ cmd [] = 0%nat.
Proof. reflexivity. Qed.

(** Every move of a worker keeps [pool_inv]. *)
Lemma pool_inv_step (env : Env) (cmds : list string) (total : nat) (p : Pool)
    (queue : list (option (gmap string Py.PyVal))) (k : nat) (w : Worker) :
  pool_inv env cmds total p queue ->
  workers p !! k = Some w ->
  can_step (nonempty queue) w = true ->
  pool_inv env cmds total (fst (pool_step env k w p queue))
    (snd (pool_step env k w p queue)).
Proof.
  intros (Hws & Hq & Hlen & Hocc & Hex & Hns & Hun & Hcr & Hpill) Hk Hcan.
  destruct (Forall_lookup_1 _ _ _ _ Hws Hk) as (Hself & Hst).
  unfold can_step in Hcan. apply andb_prop in Hcan. destruct Hcan as (Hrun & Hmove).
  unfold running in Hrun. destruct (w_status w) eqn:Hstatus; try discriminate.
  assert (Hw1 : crashed w = false) by (unfold crashed; now rewrite Hstatus).
  assert (Hw2 : exited w = false) by (unfold exited; now rewrite Hstatus).
  unfold pool_step. destruct (w_held w) as [[t|]|] eqn:Hheld.
  - (* the worker runs the task it holds *)
    destruct Hst as (c & ->).
    assert (Hw3 : holding w = true) by (unfold holding; now rewrite Hheld).
    assert (Hw4 : holding_pill w = false) by (unfold holding_pill; now rewrite Hheld).
    assert (Hheld1 : held_commands [w] = [c]).
    { unfold held_commands. cbn [flat_map]. rewrite Hheld. reflexivity. }
    assert (Hin : In c cmds).
    { apply occ_In. specialize (Hocc c).
      pose proof (held_commands_insert _ _ _ fresh_worker c Hk) as Hh.
      rewrite Hheld1, occ_cons in Hh. change (held_commands [fresh_worker]) with (@nil string) in Hh.
      rewrite !occ_nil in Hh. destruct (string_dec c c); [lia | congruence]. }
    rewrite Hself, run_body_task. destruct (failing env c) eqn:Hf.
    + cbn [fst snd after acks ran refused].
      worker_counts Hk {| w_self := CommandProcess_init; w_status := Crashed (death env c);
                          w_held := None |}.
      rewrite ?Hw1, ?Hw2, ?Hw3, ?Hw4 in *.
      unfold pool_inv. cbn [workers unfinished executed never_started].
      split; [apply Forall_insert; [exact Hws|]; split; [reflexivity|]; cbn [w_status w_held];
              split; [reflexivity|]; exists c; auto|].
      split; [exact Hq|].
      split; [rewrite length_insert; exact Hlen|].
      split.
      { intros cmd. specialize (Hocc cmd).
        pose proof (held_commands_insert _ _ _
                      {| w_self := CommandProcess_init; w_status := Crashed (death env c);
                         w_held := None |} cmd Hk) as Hh.
        rewrite Hheld1 in Hh. change (held_commands [_]) with (@nil string) in Hh.
        rewrite !occ_app. destruct (started env c); rewrite ?occ_cons, ?occ_nil in *; lia. }
      split.
      { apply List.Forall_app. split; [exact Hex|].
        destruct (started env c) eqn:E; repeat constructor. exact E. }
      split.
      { apply List.Forall_app. split; [exact Hns|].
        destruct (started env c) eqn:E; repeat constructor. exact E. }
      split; [rewrite Hun; lia|].
      split.
      { rewrite !count_if_app in *.
        destruct (started env c); cbn [count_if]; rewrite ?Hf; lia. }
      lia.
    + cbn [fst snd after acks ran refused].
      worker_counts Hk fresh_worker.
      rewrite ?Hw1, ?Hw2, ?Hw3, ?Hw4 in *.
      unfold pool_inv. cbn [workers unfinished executed never_started].
      split; [apply Forall_insert; [exact Hws|]; split; [reflexivity | exact I]|].
      split; [exact Hq|].
      split; [rewrite length_insert; exact Hlen|].
      split.
      { intros cmd. specialize (Hocc cmd).
        pose proof (held_commands_insert _ _ _ fresh_worker cmd Hk) as Hh.
        rewrite Hheld1 in Hh. change (held_commands [_]) with (@nil string) in Hh.
        rewrite !occ_app, ?app_nil_r. rewrite ?occ_cons, ?occ_nil in *. lia. }
      split.
      { apply List.Forall_app. split; [exact Hex|].
        repeat constructor. apply failing_started. exact Hf. }
      split; [rewrite app_nil_r; exact Hns|].
      split; [rewrite Hun; lia|].
      split.
      { rewrite app_nil_r. rewrite !count_if_app in *. cbn [count_if]. rewrite Hf. lia. }
      lia.
  - (* the worker takes the pill it holds and leaves *)
    assert (Hw3 : holding w = true) by (unfold holding; now rewrite Hheld).
    assert (Hw4 : holding_pill w = true) by (unfold holding_pill; now rewrite Hheld).
    assert (Hheld1 : held_commands [w] = []).
    { unfold held_commands. cbn [flat_map]. rewrite Hheld. reflexivity. }
    rewrite Hself, run_body_pill. cbn [fst snd after acks ran refused].
    worker_counts Hk {| w_self := CommandProcess_init; w_status := Exited; w_held := None |}.
    rewrite ?Hw1, ?Hw2, ?Hw3, ?Hw4 in *.
    unfold pool_inv. cbn [workers unfinished executed never_started].
    split; [apply Forall_insert; [exact Hws|]; split; reflexivity|].
    split; [exact Hq|].
    split; [rewrite length_insert; exact Hlen|].
    split.
    { intros cmd. specialize (Hocc cmd).
      pose proof (held_commands_insert _ _ _
                    {| w_self := CommandProcess_init; w_status := Exited; w_held := None |}
                    cmd Hk) as Hh.
      rewrite Hheld1 in Hh. change (held_commands [_]) with (@nil string) in Hh.
      rewrite !app_nil_r. rewrite ?occ_nil in *. lia. }
    rewrite !app_nil_r.
    split; [exact Hex|]. split; [exact Hns|].
    split; [rewrite Hun; lia|].
    split; [lia|]. lia.
  - (* the worker takes the next entry of the queue *)
    destruct queue as [|entry queue']; [discriminate|].
    assert (Hw3 : holding w = false) by (unfold holding; now rewrite Hheld).
    assert (Hw4 : holding_pill w = false) by (unfold holding_pill; now rewrite Hheld).
    assert (Hheld1 : held_commands [w] = []).
    { unfold held_commands. cbn [flat_map]. rewrite Hheld. reflexivity. }
    cbn [fst snd].
    rewrite Hstatus.
    worker_counts Hk {| w_self := w_self w; w_status := Running; w_held := Some entry |}.
    rewrite ?Hw1, ?Hw2, ?Hw3, ?Hw4 in *.
    inversion Hq as [|e q' Hentry Hq']; subst e q'.
    unfold pool_inv. cbn [workers unfinished executed never_started].
    split.
    { apply Forall_insert; [exact Hws|]. split; [exact Hself|].
      cbn [w_status w_held]. exact Hentry. }
    split; [exact Hq'|].
    split; [rewrite length_insert; exact Hlen|].
    split.
    { intros cmd. specialize (Hocc cmd).
      pose proof (held_commands_insert _ _ _
                    {| w_self := w_self w; w_status := Running; w_held := Some entry |}
                    cmd Hk) as Hh.
      rewrite Hheld1 in Hh. rewrite occ_nil in Hh.
      change (queue_commands (entry :: queue'))
        with (match entry with Some t => command_of t | None => [] end
              ++ queue_commands queue') in Hocc.
      rewrite occ_app in Hocc.
      change (held_commands [_])
        with (match entry with Some t => command_of t | None => [] end ++ []) in Hh.
      rewrite app_nil_r in Hh.
      destruct entry as [t|]; rewrite ?occ_nil in *; lia. }
    split; [exact Hex|]. split; [exact Hns|].
    split; [rewrite Hun; cbn [length]; lia|].
    split; [lia|].
    destruct entry as [t|]; cbn [sentinels] in *; lia.
Qed.

Lemma pool_inv_init (env : Env) (cmds : list string) (ws : list Worker) :
  Forall (fun w => w = fresh_worker) ws ->
  pool_inv env cmds (length ws)
    {| workers := ws;
       unfinished := Z.of_nat (length (map Some (map CommandTask_init cmds)
                                       ++ map (fun _ : Worker => None) ws));
       executed := []; never_started := [] |}
    (map Some (map CommandTask_init cmds) ++ map (fun _ => None) ws).
Proof.
  intros Hws. unfold pool_inv. cbn [workers unfinished executed never_started app].
  assert (Hcount : forall f, f fresh_worker = false -> count_if f ws = 0%nat).
  { intros f Hf. apply count_if_none. intros w Hin.
    rewrite (proj1 (List.Forall_forall _ _) Hws w Hin). exact Hf. }
  assert (Hheld : held_commands ws = []).
  { apply held_commands_none. eapply List.Forall_impl; [|exact Hws].
    intros w ->. reflexivity. }
  assert (Hqc : queue_commands (map Some (map CommandTask_init cmds)
                                ++ map (fun _ : Worker => None) ws) = cmds).
  { unfold queue_commands. rewrite flat_map_app.
    replace (flat_map _ (map (fun _ : Worker => None) ws)) with (@nil string)
      by (clear; induction ws as [|w ws IH]; [reflexivity | exact IH]).
    rewrite app_nil_r. clear. induction cmds as [|c cmds IH]; [reflexivity|].
    cbn [map flat_map]. rewrite IH. reflexivity. }
  split.
  { eapply List.Forall_impl; [|exact Hws]. intros w ->. split; [reflexivity | exact I]. }
  split.
  { apply List.Forall_app. split.
    - clear. induction cmds as [|c cmds IH]; constructor; [exists c; reflexivity | exact IH].
    - clear. induction ws as [|w ws IH]; constructor; [exact I | exact IH]. }
  split; [reflexivity|].
  split; [intros cmd; rewrite Hheld, Hqc, !occ_nil; lia|].
  split; [constructor|]. split; [constructor|].
  rewrite (Hcount holding), (Hcount crashed), (Hcount exited), (Hcount holding_pill)
    by reflexivity.
  split; [f_equal; lia|]. split; [reflexivity|].
  rewrite sentinels_queue. lia.
Qed.

Lemma pool_run_suffix (env : Env) (queue0 : list (option (gmap string Py.PyVal))) :
  forall fuel round pos p queue,
    (exists pre, queue0 = pre ++ queue) ->
    exists pre, queue0 = pre ++ snd (pool_run env round fuel pos p queue).
Proof.
  intros fuel round pos p queue Hpre.
  apply (pool_run_inv env (fun _ q => exists pre, queue0 = pre ++ q)); [|exact Hpre].
  clear. intros p queue k w (pre & ->) _ _. unfold pool_step.
  destruct (w_held w); [exists pre; reflexivity|].
  destruct queue as [|entry queue']; [exists pre; reflexivity|].
  exists (pre ++ [entry]). rewrite <- app_assoc. reflexivity.
Qed.

Lemma ended_bound (env : Env) (cmds : list string) (ws : list Worker) :
  Forall (worker_ok env cmds) ws ->
  (count_if exited ws + count_if holding_pill ws <= length ws)%nat
  /\ forall w, In w ws -> running w = true -> w_held w = None ->
       (count_if exited ws + count_if holding_pill ws < length ws)%nat.
Proof.
  induction 1 as [|v ws (_ & Hv) _ (IH1 & IH2)]; [split; [simpl; lia | intros w []]|].
  assert (Hone : ((if exited v then 1 else 0) + (if holding_pill v then 1 else 0) <= 1)%nat).
  { unfold exited, holding_pill.
    destruct (w_status v); [destruct (w_held v) as [[t|]|]; lia | rewrite Hv; lia |
                            destruct Hv as (-> & _); lia]. }
  cbn [count_if length]. split.
  - destruct (exited v), (holding_pill v); lia.
  - intros w [<- | Hin] Hrun Hheld.
    + assert (exited v = false) as -> by (unfold exited, running in *; destruct (w_status v); congruence).
      assert (holding_pill v = false) as -> by (unfold holding_pill; now rewrite Hheld).
      lia.
    + specialize (IH2 w Hin Hrun Hheld). destruct (exited v), (holding_pill v); lia.
Qed.

Lemma ended_counts (env : Env) (cmds : list string) (ws : list Worker) :
  Forall (worker_ok env cmds) ws ->
  Forall (fun w => running w = false) ws ->
  Forall (fun w => w_held w = None) ws
  /\ (count_if exited ws + count_if crashed ws = length ws)%nat.
Proof.
  induction 1 as [|v ws (_ & Hv) _ IH]; intros Hrun; [split; [constructor | reflexivity]|].
  inversion Hrun as [|v' ws' Hr Hrun']; subst v' ws'.
  destruct (IH Hrun') as (IH1 & IH2). cbn [count_if length].
  unfold running in Hr. unfold exited, crashed in *.
  destruct (w_status v); [discriminate | |].
  - split; [constructor; assumption | lia].
  - destruct Hv as (Hv & _). split; [constructor; assumption | lia].
Qed.

(** A round's pool, run on the queue the main loop fills: the run ends with
    [pool_inv], no worker in its loop and none holding an entry, and what is
    left is a tail of the queue. *)
Lemma pool_run_facts (env : Env) (round pos : nat) (cmds : list string) (ws : list Worker) :
  Forall (fun w => w = fresh_worker) ws ->
  let queue := map Some (map CommandTask_init cmds) ++ map (fun _ => None) ws in
  let pr := pool_run env round (2 * length queue) pos
              {| workers := ws; unfinished := Z.of_nat (length queue);
                 executed := []; never_started := [] |} queue in
  pool_inv env cmds (length ws) (fst pr) (snd pr)
  /\ Forall (fun w => running w = false /\ w_held w = None) (workers (fst pr))
  /\ (exists pre, queue = pre ++ snd pr).
Proof.
  intros Hws queue pr.
  assert (Hinv : pool_inv env cmds (length ws) (fst pr) (snd pr)).
  { apply (pool_run_inv env (pool_inv env cmds (length ws))).
    - intros p q k w. apply pool_inv_step.
    - apply pool_inv_init. exact Hws. }
  split; [exact Hinv|]. split; [|apply pool_run_suffix; exists []; reflexivity].
  assert (Hstuck : forall w, In w (workers (fst pr)) ->
                             can_step (nonempty (snd pr)) w = false).
  { apply pool_run_stuck. cbn [workers].
    rewrite (count_if_none holding ws); [lia|].
    intros w Hin. rewrite (proj1 (List.Forall_forall _ _) Hws w Hin). reflexivity. }
  destruct Hinv as (Hok & _ & Hlen & _ & _ & _ & _ & _ & Hpill).
  destruct (ended_bound env cmds _ Hok) as (_ & Hbound).
  assert (Hrun : Forall (fun w => running w = false) (workers (fst pr))).
  { apply List.Forall_forall. intros w Hin.
    destruct (running w) eqn:Hr; [exfalso | reflexivity].
    specialize (Hstuck w Hin). unfold can_step in Hstuck. rewrite Hr in Hstuck.
    cbn [andb] in Hstuck. destruct (w_held w) eqn:Hheld; [discriminate|].
    specialize (Hbound w Hin Hr Hheld).
    destruct (snd pr); [cbn [sentinels] in Hpill; lia | discriminate]. }
  destruct (ended_counts env cmds _ Hok Hrun) as (Hnone & _).
  apply List.Forall_forall. intros w Hin. split.
  - exact (proj1 (List.Forall_forall _ _) Hrun w Hin).
  - exact (proj1 (List.Forall_forall _ _) Hnone w Hin).
Qed.

(** ** The planning loop *)

Lemma index_in_range {A} (l : list A) (k : Z) :
  0 <= k < Z.of_nat (length l) -> exists x, Py.index l k = inr x.
Proof.
  intros Hk. unfold Py.index.
  destruct (k <? 0) eqn:Hneg; [apply Z.ltb_lt in Hneg; lia|].
  rewrite Hneg. simpl.
  destruct (Z.of_nat (length l) <=? k) eqn:Hge; [apply Z.leb_le in Hge; lia|].
  destruct (l !! Z.to_nat k) as [x|] eqn:Hl; [eauto|].
  apply lookup_ge_None in Hl. lia.
Qed.

Lemma plan_for_spec (destinations : list string) (processTotal c : Z)
    (sourcePath destPath : string) (hs : list Z) :
  let n := Z.of_nat (length destinations) in
  1 <= c -> Forall (fun h => 0 <= h) hs ->
  forall pl, exists pl' new,
    plan_for destinations n processTotal c sourcePath destPath hs pl = inr pl'
    /\ plan_pairs pl' = plan_pairs pl ++ new
    /\ Forall (pair_ok n c) new
    /\ plan_hostsCopiedTo pl' = plan_hostsCopiedTo pl + Z.of_nat (length new)
    /\ (length new <= length hs)%nat
    /\ (Forall (fun h => h + c < n) hs -> new = map (fun h => (h, h + c)) hs)
    /\ (forall h hs', hs = h :: hs' -> h + c < n -> new <> []).
Proof.
  intros n Hc Hhs. induction Hhs as [|h hs Hh Hhs IH]; intros pl.
  - exists pl, []. simpl. rewrite app_nil_r, Z.add_0_r.
    repeat split; try constructor; try reflexivity. intros; discriminate.
  - cbn [plan_for]. destruct (n <=? h + c) eqn:Hbreak.
    + apply Z.leb_le in Hbreak. exists pl, []. rewrite app_nil_r, Z.add_0_r.
      repeat split; try constructor; simpl; try lia.
      * intros Hall. inversion Hall; subst. lia.
      * intros h' hs' Heq Hlt. injection Heq as <- <-. lia.
    + apply Z.leb_gt in Hbreak.
      destruct (index_in_range destinations (h + c)) as [hostToAdd ->]; [fold n; lia|].
      destruct (index_in_range destinations h) as [src ->]; [fold n; lia|].
      match goal with |- context [plan_for _ _ _ _ _ _ hs ?p] => destruct (IH p) as (pl' & new & Hrun & Hpairs & Hok & Hcount & Hlen & Hfull & _) end.
      exists pl', ((h, h + c) :: new). cbn [plan_pairs plan_hostsCopiedTo] in *.
      split; [exact Hrun|]. split; [rewrite Hpairs, <- app_assoc; reflexivity|].
      split; [constructor; [unfold pair_ok; simpl; lia | exact Hok]|].
      split; [rewrite Hcount; simpl length; lia|].
      split; [simpl; lia|].
      split; [intros Hall; inversion Hall; subst; simpl; f_equal; auto|].
      intros; discriminate.
Qed.

Lemma range0_nonneg (n : Z) : Forall (fun h => 0 <= h) (Py.range0 n).
Proof.
  unfold Py.range0. apply List.Forall_forall. intros h Hin.
  apply in_map_iff in Hin. destruct Hin as (k & <- & _). lia.
Qed.

Lemma range0_length (n : Z) : length (Py.range0 n) = Z.to_nat n.
Proof. unfold Py.range0. rewrite length_map, length_seq. reflexivity. Qed.

Lemma range0_head (n : Z) : 1 <= n -> exists hs, Py.range0 n = 0 :: hs.
Proof.
  intros Hn. unfold Py.range0. destruct (Z.to_nat n) as [|m] eqn:Hm; [lia|].
  simpl. eauto.
Qed.

Lemma range0_below (n : Z) : Forall (fun h => h < n) (Py.range0 n).
Proof.
  unfold Py.range0. apply List.Forall_forall. intros h Hin.
  apply in_map_iff in Hin. destruct Hin as (k & <- & Hk). apply in_seq in Hk. lia.
Qed.

(** ** The round loop *)

Lemma plan_for_shape (destinations : list string) (hostTotal processTotal c : Z)
    (sourcePath destPath : string) (hs : list Z) :
  forall pl pl',
    plan_for destinations hostTotal processTotal c sourcePath destPath hs pl = inr pl' ->
    exists hs1 hs2 cmds,
      hs = hs1 ++ hs2
      /\ plan_pairs pl' = plan_pairs pl ++ map (fun h => (h, h + c)) hs1
      /\ plan_tasks pl' = plan_tasks pl ++ map CommandTask_init cmds
      /\ Forall2 (fun cmd h => exists src hostToAdd,
                      Py.index destinations h = inr src
                      /\ Py.index destinations (h + c) = inr hostToAdd
                      /\ cmd = copy_command src sourcePath hostToAdd destPath) cmds hs1
      /\ plan_processes pl'
         = plan_processes pl
           ++ replicate (count_if (fun h => h <? processTotal) hs1) fresh_worker
      /\ plan_hostsCopiedTo pl' = plan_hostsCopiedTo pl + Z.of_nat (length hs1)
      /\ List.Forall (fun h => h + c < hostTotal) hs1
      /\ match hs2 with [] => True | h :: _ => hostTotal <= h + c end.
Proof.
  induction hs as [|h hs IH]; intros pl pl' Hrun.
  - simpl in Hrun. injection Hrun as <-. exists [], [], []. simpl.
    rewrite !app_nil_r, Z.add_0_r. repeat split; constructor.
  - cbn [plan_for] in Hrun. destruct (hostTotal <=? h + c) eqn:Hbreak.
    + injection Hrun as <-. apply Z.leb_le in Hbreak. exists [], (h :: hs), []. simpl.
      rewrite !app_nil_r, Z.add_0_r. repeat split; try constructor. exact Hbreak.
    + apply Z.leb_gt in Hbreak.
      destruct (Py.index destinations (h + c)) as [e | hostToAdd] eqn:Hdst; [discriminate|].
      destruct (Py.index destinations h) as [e | src] eqn:Hsrc; [discriminate|].
      apply IH in Hrun.
      destruct Hrun as (hs1 & hs2 & cmds & -> & Hpairs & Htasks & Hcmds & Hprocs & Hcount & Hlt & Hstop).
      cbn [plan_pairs plan_tasks plan_processes plan_hostsCopiedTo] in *.
      exists (h :: hs1), hs2, (copy_command src sourcePath hostToAdd destPath :: cmds).
      split; [reflexivity|].
      split; [rewrite Hpairs, <- app_assoc; reflexivity|].
      split; [rewrite Htasks, <- app_assoc; reflexivity|].
      split; [constructor; [eauto | exact Hcmds]|].
      split.
      { rewrite Hprocs. cbn [count_if]. destruct (h <? processTotal).
        - rewrite <- app_assoc. reflexivity.
        - reflexivity. }
      split; [rewrite Hcount; cbn [length]; lia|].
      split; [constructor; [lia | exact Hlt] | exact Hstop].
Qed.

Lemma range_prefix (a n : nat) (hs1 hs2 : list Z) :
  map Z.of_nat (seq a n) = hs1 ++ hs2 -> hs1 = map Z.of_nat (seq a (length hs1)).
Proof.
  revert a n. induction hs1 as [|h hs1 IH]; intros a n Heq; [reflexivity|].
  destruct n as [|n]; [discriminate|]. simpl in Heq. injection Heq as <- Heq.
  simpl. f_equal. exact (IH _ _ Heq).
Qed.

Lemma count_below (p : Z) (m : nat) :
  count_if (fun h => h <? p) (map Z.of_nat (seq 0 m)) = Nat.min m (Z.to_nat p).
Proof.
  induction m as [|m IH]; [reflexivity|].
  rewrite seq_S, map_app, count_if_app, IH. cbn [map count_if Nat.add].
  destruct (Z.of_nat m <? p) eqn:E; [apply Z.ltb_lt in E | apply Z.ltb_ge in E]; lia.
Qed.

Lemma flat_map_command_of (cmds : list string) :
  flat_map command_of (map CommandTask_init cmds) = cmds.
Proof. induction cmds as [|c cmds IH]; simpl; [reflexivity | now rewrite IH]. Qed.

(** ** Further properties: every round of a run *)

(** ** One round *)

(** What [pool_inv] gives once no worker is in its loop any more. *)
Lemma pool_end (env : Env) (cmds : list string) (total : nat) (p : Pool)
    (rest : list (option (gmap string Py.PyVal))) :
  pool_inv env cmds total p rest ->
  Forall (fun w => running w = false /\ w_held w = None) (workers p) ->
  List.Forall (fun w => w_self w = CommandProcess_init
                        /\ w_held w = None
                        /\ (w_status w = Exited
                            \/ exists cmd, In cmd cmds /\ failing env cmd = true
                                           /\ w_status w = Crashed (death env cmd)))
    (workers p)
  /\ Permutation (executed p ++ never_started p ++ queue_commands rest) cmds
  /\ unfinished p
     = Z.of_nat (length rest) + Z.of_nat (count_if crashed (workers p))
  /\ (count_if exited (workers p) + count_if crashed (workers p) = total)%nat
  /\ sentinels rest = count_if crashed (workers p)
  /\ joined p = true.
Proof.
  intros (Hok & _ & Hlen & Hocc & _ & _ & Hun & _ & Hpill) Hended.
  assert (Hrun : Forall (fun w => running w = false) (workers p)).
  { eapply List.Forall_impl; [|exact Hended]. intros w (H & _). exact H. }
  assert (Hnone : Forall (fun w => w_held w = None) (workers p)).
  { eapply List.Forall_impl; [|exact Hended]. intros w (_ & H). exact H. }
  destruct (ended_counts env cmds _ Hok Hrun) as (_ & Hcount).
  assert (Hholding : count_if holding (workers p) = 0%nat).
  { apply count_if_none. intros w Hin. unfold holding.
    rewrite (proj1 (List.Forall_forall _ _) Hnone w Hin). reflexivity. }
  assert (Hholding_pill : count_if holding_pill (workers p) = 0%nat).
  { apply count_if_none. intros w Hin. unfold holding_pill.
    rewrite (proj1 (List.Forall_forall _ _) Hnone w Hin). reflexivity. }
  split.
  { apply List.Forall_forall. intros w Hin.
    destruct (proj1 (List.Forall_forall _ _) Hok w Hin) as (Hself & Hst).
    pose proof (proj1 (List.Forall_forall _ _) Hrun w Hin) as Hr.
    split; [exact Hself|].
    split; [exact (proj1 (List.Forall_forall _ _) Hnone w Hin)|].
    unfold running in Hr. destruct (w_status w) as [| |e]; [discriminate | left; reflexivity|].
    right. destruct Hst as (_ & cmd & Hcmd & Hf & ->). exists cmd. auto. }
  split.
  { apply (Permutation_count_occ string_dec). intros cmd. specialize (Hocc cmd).
    rewrite (held_commands_none _ Hnone), occ_nil in Hocc.
    rewrite !count_occ_app. unfold occ in Hocc. lia. }
  split; [rewrite Hun, Hholding; lia|].
  split; [lia|]. split; [lia|].
  unfold joined. apply forallb_forall. intros w Hin.
  rewrite (proj1 (List.Forall_forall _ _) Hrun w Hin). reflexivity.
Qed.

(** The facts about one round of the loop, whatever state it starts in. *)
Lemma round_facts (env : Env) (round : nat) (destinations : list string)
    (hostTotal processTotal : Z) (sourcePath destPath : string) (st : State) (pl : Plan) :
  plan_for destinations hostTotal processTotal (clamped_copies hostTotal st)
    sourcePath destPath (Py.range0 (hostTotal - hostsCopiedTo st))
    {| plan_hostsCopiedTo := hostsCopiedTo st; plan_processes := [];
       plan_tasks := []; plan_pairs := [] |} = inr pl ->
  let rd := round_of env round hostTotal st pl in
  let m := length (round_pairs rd) in
  round_pairs rd
  = map (fun h => (h, h + round_copies rd)) (map Z.of_nat (seq 0 m))
  /\ Forall2 (fun cmd hd => exists src hostToAdd,
                  Py.index destinations (fst hd) = inr src
                  /\ Py.index destinations (snd hd) = inr hostToAdd
                  /\ cmd = copy_command src sourcePath hostToAdd destPath)
       (round_commands rd) (round_pairs rd)
  /\ length (workers (round_pool rd)) = Nat.min m (Z.to_nat processTotal)
  /\ pool_inv env (round_commands rd) (Nat.min m (Z.to_nat processTotal))
       (round_pool rd) (round_left rd)
  /\ Forall (fun w => running w = false /\ w_held w = None) (workers (round_pool rd))
  /\ (exists pre, round_queue pl = pre ++ round_left rd)
  /\ round_queue pl
     = map Some (map CommandTask_init (round_commands rd))
       ++ replicate (Nat.min m (Z.to_nat processTotal)) None.
Proof.
  intros Hplan rd m.
  destruct (plan_for_shape _ _ _ _ _ _ _ _ _ Hplan)
    as (hs1 & hs2 & cmds & Hhs & Hpairs & Htasks & Hcmds & Hprocs & _ & _ & _).
  cbn [plan_pairs plan_tasks plan_processes app] in Hpairs, Htasks, Hprocs.
  unfold Py.range0 in Hhs. apply range_prefix in Hhs.
  assert (Hm : m = length hs1).
  { unfold m, rd. cbn [round_of round_pairs]. rewrite Hpairs, length_map. reflexivity. }
  rewrite <- Hm in Hhs.
  assert (Hk : count_if (fun h => h <? processTotal) hs1 = Nat.min m (Z.to_nat processTotal)).
  { rewrite Hhs. apply count_below. }
  rewrite Hk in Hprocs.
  assert (Hcommands : round_commands rd = cmds).
  { unfold rd. cbn [round_of round_commands]. rewrite Htasks. apply flat_map_command_of. }
  assert (Hqueue : round_queue pl
                   = map Some (map CommandTask_init cmds)
                     ++ map (fun _ : Worker => None) (plan_processes pl)).
  { unfold round_queue. rewrite Htasks. reflexivity. }
  pose proof (pool_run_facts env round 0 cmds (plan_processes pl)) as Hpool.
  cbv zeta in Hpool. rewrite <- Hqueue in Hpool.
  destruct Hpool as (Hinv & Hended & Hpre).
  { rewrite Hprocs. apply Forall_replicate. reflexivity. }
  assert (Hplen : length (plan_processes pl) = Nat.min m (Z.to_nat processTotal)).
  { rewrite Hprocs. apply length_replicate. }
  rewrite Hplen in Hinv.
  clearbody m. subst rd. unfold round_of in *. cbv zeta in *.
  cbn [round_pairs round_copies round_commands round_pool round_left] in *.
  split; [rewrite Hpairs, Hhs at 1; reflexivity|].
  split.
  { rewrite Htasks, flat_map_command_of, Hpairs.
    clear -Hcmds. induction Hcmds as [|cmd h cmds hs1 Hc _ IH]; simpl; [constructor|].
    constructor; [exact Hc | exact IH]. }
  split; [destruct Hinv as (_ & _ & Hlen & _); exact Hlen|].
  split; [rewrite Htasks, flat_map_command_of; exact Hinv|].
  split; [exact Hended|].
  split; [exact Hpre|].
  rewrite Hqueue, Hcommands, Hprocs. f_equal.
  generalize (Nat.min m (Z.to_nat processTotal)). clear.
  induction n as [|n IH]; simpl; [reflexivity | now rewrite IH].
Qed.

(** The [join] calls of a round return. *)
Lemma round_joined (env : Env) (round : nat) (destinations : list string)
    (hostTotal processTotal : Z) (sourcePath destPath : string) (st : State) (pl : Plan) :
  plan_for destinations hostTotal processTotal (clamped_copies hostTotal st)
    sourcePath destPath (Py.range0 (hostTotal - hostsCopiedTo st))
    {| plan_hostsCopiedTo := hostsCopiedTo st; plan_processes := [];
       plan_tasks := []; plan_pairs := [] |} = inr pl ->
  joined (round_pool (round_of env round hostTotal st pl)) = true.
Proof.
  intros Hplan.
  destruct (round_facts env round _ _ _ _ _ _ _ Hplan) as (_ & _ & _ & Hinv & Hended & _).
  exact (proj2 (proj2 (proj2 (proj2 (proj2 (pool_end _ _ _ _ _ Hinv Hended)))))).
Qed.


(** ** The round loop *)

Lemma sync_loop_done (fuel : nat) (env : Env) (destinations : list string)
    (hostTotal processTotal : Z) (sourcePath destPath : string) (st : State)
    (past : list Round) :
  hostTotal <= hostsCopiedTo st ->
  sync_loop fuel env destinations hostTotal processTotal sourcePath destPath st past
  = {| final := Finished; rounds := past |}.
Proof.
  intros H. apply Z.ltb_ge in H. destruct fuel; cbn [sync_loop]; rewrite H; reflexivity.
Qed.

Lemma sync_loop_S (fuel : nat) (env : Env) (destinations : list string)
    (hostTotal processTotal : Z) (sourcePath destPath : string) (st : State)
    (past : list Round) :
  sync_loop (S fuel) env destinations hostTotal processTotal sourcePath destPath st past
  = if hostsCopiedTo st <? hostTotal then
      match plan_for destinations hostTotal processTotal (clamped_copies hostTotal st)
              sourcePath destPath (Py.range0 (hostTotal - hostsCopiedTo st))
              {| plan_hostsCopiedTo := hostsCopiedTo st; plan_processes := [];
                 plan_tasks := []; plan_pairs := [] |} with
      | inl e => {| final := Traceback e; rounds := past |}
      | inr pl =>
          if joined (round_pool (round_of env (length past) hostTotal st pl))
          then sync_loop fuel env destinations hostTotal processTotal sourcePath destPath
                 (round_after (round_of env (length past) hostTotal st pl))
                 (past ++ [round_of env (length past) hostTotal st pl])
          else {| final := Blocked;
                  rounds := past ++ [round_of env (length past) hostTotal st pl] |}
      end
    else {| final := Finished; rounds := past |}.
Proof.
  cbn [sync_loop]. destruct (hostsCopiedTo st <? hostTotal); [|reflexivity].
  unfold clamped_copies. destruct (plan_for _ _ _ _ _ _ _ _) as [e | pl]; [reflexivity|].
  unfold round_of, round_queue. cbv zeta.
  destruct (pool_run _ _ _ _ _) as [pool rest]. reflexivity.
Qed.


(** From any state within the roster, with a positive step, the loop runs to
    its end and its rounds satisfy [rounds_from]. *)
Lemma sync_loop_rounds (env : Env) (destinations : list string) (processTotal : Z)
    (sourcePath destPath : string) :
  let n := Z.of_nat (length destinations) in
  forall fuel st past,
    1 <= hostsCopiedTo st <= n -> 0 <= i st -> 1 <= copies st ->
    n - hostsCopiedTo st <= Z.of_nat fuel ->
    exists news,
      sync_loop fuel env destinations n processTotal sourcePath destPath st past
      = {| final := Finished; rounds := past ++ news |}
      /\ rounds_from n st news.
Proof.
  intros n fuel. induction fuel as [|fuel IH]; intros st past Hst Hi Hc Hfuel.
  - exists []. rewrite app_nil_r. split; [apply sync_loop_done; lia | simpl; lia].
  - destruct (Z.lt_ge_cases (hostsCopiedTo st) n) as [Hlt | Hge].
    2:{ exists []. rewrite app_nil_r. split; [apply sync_loop_done; lia | simpl; lia]. }
    rewrite sync_loop_S. apply Z.ltb_lt in Hlt as Hlt'. rewrite Hlt'.
    set (remaining := n - hostsCopiedTo st).
    assert (Hcr : 1 <= clamped_copies n st <= remaining).
    { unfold clamped_copies. fold remaining. destruct (remaining <? copies st) eqn:E;
        [apply Z.ltb_lt in E | apply Z.ltb_ge in E]; unfold remaining in *; lia. }
    match goal with |- context [plan_for _ _ _ _ _ _ _ ?p] => set (pl0 := p) end.
    destruct (plan_for_spec destinations processTotal (clamped_copies n st)
                sourcePath destPath
                (Py.range0 remaining) (proj1 Hcr) (range0_nonneg remaining) pl0)
      as (pl & new & Hrun & Hpairs & Hok & Hcount & Hlen & _ & Hne).
    fold n in Hrun, Hok. rewrite Hrun.
    pose proof (round_joined env (length past) _ _ _ _ _ _ _ Hrun) as Hj.
    rewrite Hj.
    rewrite range0_length in Hlen. cbn [plan_pairs plan_hostsCopiedTo pl0] in *.
    simpl in Hpairs. subst new.
    destruct (range0_head remaining) as [hs Hhs]; [lia|].
    assert (Hnonempty : plan_pairs pl <> []).
    { apply (Hne 0 hs Hhs). unfold remaining in *. lia. }
    match goal with |- context [sync_loop fuel _ _ _ _ _ _ ?s ?ps] =>
      destruct (IH s ps) as (news & Hloop & Hrounds) end.
    + cbn [round_of round_after hostsCopiedTo]. destruct (plan_pairs pl); [congruence|].
      simpl length in *. unfold remaining in *. lia.
    + cbn [round_of round_after i]. lia.
    + cbn [round_of round_after copies].
      assert (0 < 2 ^ (i st + 1)) by (apply Z.pow_pos_nonneg; lia). lia.
    + cbn [round_of round_after hostsCopiedTo]. destruct (plan_pairs pl); [congruence|].
      simpl length in *. unfold remaining in *. lia.
    + eexists (_ :: news). rewrite Hloop, <- app_assoc. split; [reflexivity|].
      cbn [rounds_from]. split; [exact Hlt|].
      cbn [round_of round_pairs round_copies round_after hostsCopiedTo] in *.
      split; [exact Hnonempty|]. split; [exact Hok|]. split; [exact Hcount|].
      split; [unfold remaining in *; lia|]. split; [exact Hj | exact Hrounds].
Qed.


(** What [rounds_from] says about the states and the rounds. *)
Lemma rounds_from_bounds (n : Z) (rds : list Round) :
  forall st, 1 <= hostsCopiedTo st <= n -> rounds_from n st rds ->
    List.Forall (fun s => 1 <= hostsCopiedTo s <= n) (states_of st rds).
Proof.
  unfold states_of. induction rds as [|rd rds IH]; intros st Hst Hr; simpl.
  - constructor; [exact Hst | constructor].
  - destruct Hr as (Hlt & _ & _ & Hcount & Hle & _ & Hrest).
    constructor; [exact Hst|]. apply IH; [lia | exact Hrest].
Qed.

Lemma rounds_from_increasing (n : Z) (rds : list Round) :
  forall st k s s', rounds_from n st rds ->
    states_of st rds !! k = Some s -> states_of st rds !! S k = Some s' ->
    hostsCopiedTo s < n /\ hostsCopiedTo s < hostsCopiedTo s'.
Proof.
  unfold states_of. induction rds as [|rd rds IH]; intros st k s s' Hr Hs Hs'.
  - destruct k; discriminate.
  - destruct Hr as (Hlt & Hne & _ & Hcount & _ & _ & Hrest).
    destruct k as [|k].
    + simpl in Hs, Hs'. injection Hs as <-. injection Hs' as <-.
      split; [exact Hlt|]. destruct (round_pairs rd); [congruence|]. simpl length in Hcount. lia.
    + simpl in Hs, Hs'. exact (IH _ k s s' Hrest Hs Hs').
Qed.

Lemma rounds_from_last (n : Z) (rds : list Round) :
  forall st s, rounds_from n st rds -> last (states_of st rds) = Some s ->
    hostsCopiedTo s = n.
Proof.
  unfold states_of. induction rds as [|rd rds IH]; intros st s Hr Hl.
  - simpl in Hl. injection Hl as <-. exact Hr.
  - destruct Hr as (_ & _ & _ & _ & _ & _ & Hrest).
    apply (IH (round_after rd)); [exact Hrest|]. exact Hl.
Qed.

Lemma rounds_from_pairs (n : Z) (rds : list Round) :
  forall st, rounds_from n st rds ->
    List.Forall (fun rd => round_pairs rd <> []
                           /\ List.Forall (pair_ok n (round_copies rd)) (round_pairs rd)
                           /\ joined (round_pool rd) = true) rds.
Proof.
  induction rds as [|rd rds IH]; intros st Hr; [constructor|].
  destruct Hr as (_ & Hne & Hok & _ & _ & Hj & Hrest).
  constructor; [auto | exact (IH _ Hrest)].
Qed.

(** From the initial state and with at least two hosts, the first round pairs
    every host but the last with its successor (step [1]), which brings
    [hostsCopiedTo] to the length of the roster: the loop stops after it. *)
Lemma sync_loop_first_round (env : Env) (destinations : list string) (processTotal : Z)
    (sourcePath destPath : string) (fuel : nat) :
  let n := Z.of_nat (length destinations) in
  2 <= n ->
  exists rd,
    sync_loop (S fuel) env destinations n processTotal sourcePath destPath initial_state []
    = {| final := Finished; rounds := [rd] |}
    /\ round_copies rd = 1
    /\ round_pairs rd = map (fun h => (h, h + 1)) (Py.range0 (n - 1))
    /\ round_after rd = {| hostsCopiedTo := n; i := 1; copies := 2 |}.
Proof.
  intros n Hn. rewrite sync_loop_S.
  assert (Hclamp : clamped_copies n initial_state = 1).
  { unfold clamped_copies. cbn [initial_state hostsCopiedTo copies].
    destruct (n - 1 <? 1) eqn:E; [apply Z.ltb_lt in E; lia | reflexivity]. }
  rewrite Hclamp. change (hostsCopiedTo initial_state) with 1.
  destruct (1 <? n) eqn:Hlt; [|apply Z.ltb_ge in Hlt; lia].
  match goal with |- context [plan_for _ _ _ _ _ _ _ ?p] => set (pl0 := p) end.
  assert (H1 : 1 <= 1) by lia.
  destruct (plan_for_spec destinations processTotal 1 sourcePath destPath
              (Py.range0 (n - 1)) H1 (range0_nonneg (n - 1)) pl0)
    as (pl & new & Hrun & Hpairs & _ & Hcount & _ & Hfull & _).
  fold n in Hrun, Hfull. rewrite Hrun.
  assert (Hj : joined (round_pool (round_of env (length (@nil Round)) n initial_state pl))
               = true).
  { apply (round_joined env _ destinations n processTotal sourcePath destPath).
    rewrite Hclamp. exact Hrun. }
  rewrite Hj.
  assert (Hnew : new = map (fun h => (h, h + 1)) (Py.range0 (n - 1))).
  { apply Hfull. eapply List.Forall_impl; [|apply range0_below]. simpl. intros; lia. }
  cbn [plan_pairs plan_hostsCopiedTo pl0] in Hpairs, Hcount. simpl in Hpairs.
  assert (Hall : plan_hostsCopiedTo pl = n).
  { rewrite Hcount, Hnew, length_map, range0_length. lia. }
  rewrite sync_loop_done by (cbn [round_of round_after hostsCopiedTo]; lia).
  eexists. split; [reflexivity|]. cbn [round_of round_copies round_pairs round_after].
  rewrite Hpairs, Hnew, Hall, Hclamp. auto.
Qed.

Lemma sync_loop_each_round (P : Round -> Prop) (env : Env) (destinations : list string)
    (hostTotal processTotal : Z) (sourcePath destPath : string) :
  (forall round st pl,
      plan_for destinations hostTotal processTotal (clamped_copies hostTotal st)
        sourcePath destPath (Py.range0 (hostTotal - hostsCopiedTo st))
        {| plan_hostsCopiedTo := hostsCopiedTo st; plan_processes := [];
           plan_tasks := []; plan_pairs := [] |} = inr pl ->
      P (round_of env round hostTotal st pl)) ->
  forall fuel st past,
    List.Forall P past ->
    List.Forall P (rounds (sync_loop fuel env destinations hostTotal processTotal
                             sourcePath destPath st past)).
Proof.
  intros Hround. induction fuel as [|fuel IH]; intros st past Hpast.
  - cbn [sync_loop]. destruct (_ <? _); exact Hpast.
  - rewrite sync_loop_S. destruct (_ <? _); [|exact Hpast].
    destruct (plan_for _ _ _ _ _ _ _ _) as [e | pl] eqn:Hplan; [exact Hpast|].
    assert (Hnew : List.Forall P (past ++ [round_of env (length past) hostTotal st pl])).
    { apply List.Forall_app. split; [exact Hpast|]. constructor; [|constructor].
      apply Hround. exact Hplan. }
    destruct (joined _); [apply IH; exact Hnew | exact Hnew].
Qed.

Lemma main_each_round (P : Round -> Prop) (env : Env) (args : Args) :
  (forall sourcePath destPath round st pl,
      normalize_paths env (args_path args) = inr (sourcePath, destPath) ->
      let destinations := build_destinations (hostname env) (args_destinations args) in
      let n := Z.of_nat (length destinations) in
      plan_for destinations n (cpu_count env * 2) (clamped_copies n st)
        sourcePath destPath (Py.range0 (n - hostsCopiedTo st))
        {| plan_hostsCopiedTo := hostsCopiedTo st; plan_processes := [];
           plan_tasks := []; plan_pairs := [] |} = inr pl ->
      P (round_of env round n st pl)) ->
  List.Forall P (rounds (main env args)).
Proof.
  intros Hround. unfold main.
  destruct (checkExe env RSYNC_EXE); [constructor|].
  destruct (checkExe env SSH_EXE); [constructor|].
  destruct (normalize_paths env (args_path args)) as [f | [sp dp]] eqn:Hnorm; [constructor|].
  apply sync_loop_each_round; [|constructor].
  intros round st pl Hplan. exact (Hround sp dp round st pl eq_refl Hplan).
Qed.


(** ** The main program *)

Lemma build_destinations_head (hostname arg : string) :
  exists tl, build_destinations hostname arg = hostname :: tl.
Proof.
  unfold build_destinations.
  assert (H : forall ds acc, exists tl,
             fold_left
               (fun destinations d =>
                  if negb (String.eqb d hostname) then destinations ++ [Py.strip d]
                  else destinations)
               ds (hostname :: acc) = hostname :: tl).
  { induction ds as [|d ds IH]; intros acc; simpl; [eauto|].
    destruct (negb (String.eqb d hostname)); [apply (IH (acc ++ [Py.strip d])) | apply IH]. }
  apply H.
Qed.

Lemma checkDir_code (env : Env) (d : string) (f : Fatal) :
  checkDir env d = inl f -> code f = 1.
Proof.
  unfold checkDir, die. destruct (negb (isdir env d)); [|discriminate].
  intros H. injection H as <-. reflexivity.
Qed.

Lemma normalize_paths_code (env : Env) (path : string) (f : Fatal) :
  normalize_paths env path = inl f -> code f = 1.
Proof.
  unfold normalize_paths.
  destruct (Py.endswith _ "/*").
  { destruct (checkDir env _) eqn:E; [|discriminate].
    intros H. injection H as <-. exact (checkDir_code _ _ _ E). }
  destruct (Py.endswith _ "/").
  { destruct (checkDir env _) eqn:E; [|discriminate].
    intros H. injection H as <-. exact (checkDir_code _ _ _ E). }
  destruct (isdir env _); [discriminate|].
  destruct (isfile env _); [discriminate|].
  unfold die. intros H. injection H as <-. reflexivity.
Qed.

(** Either the script dies during start-up, before any round, or it runs the
    loop to its end. *)
Lemma main_cases (env : Env) (args : Args) :
  let destinations := build_destinations (hostname env) (args_destinations args) in
  let n := Z.of_nat (length destinations) in
  (exists f, main env args = {| final := SystemExit f; rounds := [] |} /\ code f = 1)
  \/ (exists sourcePath destPath news,
        exists_ env RSYNC_EXE = true /\ exists_ env SSH_EXE = true
        /\ normalize_paths env (args_path args) = inr (sourcePath, destPath)
        /\ main env args
           = sync_loop (length destinations) env destinations n (cpu_count env * 2)
               sourcePath destPath initial_state []
        /\ main env args = {| final := Finished; rounds := news |}
        /\ rounds_from n initial_state news).
Proof.
  intros destinations n. unfold main, checkExe.
  destruct (exists_ env RSYNC_EXE) eqn:Hrsync; simpl;
    [|left; eexists; split; reflexivity].
  destruct (exists_ env SSH_EXE) eqn:Hssh; simpl;
    [|left; eexists; split; reflexivity].
  destruct (normalize_paths env (args_path args)) as [f | [sourcePath destPath]] eqn:Hnorm.
  - left. exists f. split; [reflexivity | exact (normalize_paths_code _ _ _ Hnorm)].
  - right. fold destinations. fold n.
    destruct (build_destinations_head (hostname env) (args_destinations args)) as [tl Htl].
    assert (Hn : 1 <= n) by (unfold n, destinations; rewrite Htl; simpl length; lia).
    destruct (sync_loop_rounds env destinations (cpu_count env * 2) sourcePath destPath
                (length destinations) initial_state [])
      as (news & Hloop & Hrounds); simpl; try lia.
    exists sourcePath, destPath, news.
    repeat split; try reflexivity; try assumption.
Qed.

Lemma rounds_from_count (n : Z) (rds : list Round) :
  forall st k s rd, rounds_from n st rds ->
    states_of st rds !! k = Some s -> rds !! k = Some rd ->
    hostsCopiedTo (round_after rd)
    = hostsCopiedTo s + Z.of_nat (length (round_pairs rd)).
Proof.
  unfold states_of. induction rds as [|rd0 rds IH]; intros st k s rd Hr Hs Hrd.
  - discriminate.
  - destruct Hr as (_ & _ & _ & Hcount & _ & _ & Hrest). destruct k as [|k].
    + simpl in Hs, Hrd. injection Hs as <-. injection Hrd as <-. exact Hcount.
    + simpl in Hs, Hrd. exact (IH _ k s rd Hrest Hs Hrd).
Qed.


Lemma rounds_from_length (n : Z) (rds : list Round) :
  forall st, rounds_from n st rds -> Z.of_nat (length rds) <= n - hostsCopiedTo st.
Proof.
  induction rds as [|rd rds IH]; intros st Hr; simpl in *; [lia|].
  destruct Hr as (_ & Hne & _ & Hcount & _ & _ & Hrest). specialize (IH _ Hrest).
  destruct (round_pairs rd); [congruence|]. simpl length in Hcount. lia.
Qed.

(** A run whose start-up checks pass goes through the loop to its end. *)
Lemma main_passes (env : Env) (args : Args) (sourcePath destPath : string) :
  let n := Z.of_nat (length (build_destinations (hostname env) (args_destinations args))) in
  exists_ env RSYNC_EXE = true -> exists_ env SSH_EXE = true ->
  normalize_paths env (args_path args) = inr (sourcePath, destPath) ->
  exists news,
    main env args = {| final := Finished; rounds := news |}
    /\ rounds_from n initial_state news.
Proof.
  intros n Hrsync Hssh Hnorm.
  destruct (main_cases env args)
    as [(f & Hmain & _) | (sp & dp & news & _ & _ & _ & _ & Hmain & Hr)]; [|eauto].
  exfalso. revert Hmain. unfold main, checkExe. rewrite Hrsync, Hssh, Hnorm. simpl.
  destruct (build_destinations_head (hostname env) (args_destinations args)) as [tl Htl].
  destruct (sync_loop_rounds env (build_destinations (hostname env) (args_destinations args))
              (cpu_count env * 2) sourcePath destPath
              (length (build_destinations (hostname env) (args_destinations args)))
              initial_state []) as (news & Hloop & _);
    [rewrite Htl; simpl; lia | simpl; lia | simpl; lia | simpl; lia|].
  rewrite Hloop. discriminate.
Qed.



(** ** The claims *)

(** C6 (confirmed).  In every run of the script, with [n] the length of the
    roster: every state of the round loop (the initial one and the one after
    each round) has [1 <= hostsCopiedTo <= n]; a round is only run from a
    state with [hostsCopiedTo < n] and leaves a strictly larger
    [hostsCopiedTo]; every round schedules at least one pair and adds one to
    [hostsCopiedTo] per pair; when the start-up checks pass (rsync and ssh
    exist and the source path is accepted) the loop terminates normally and
    the state it stops in has [hostsCopiedTo = n]; and when a start-up check
    fails the script exits before any round. *)
Theorem C6_hostsCopiedTo_invariant (env : Env) (args : Args) :
  let n := Z.of_nat (length (build_destinations (hostname env) (args_destinations args))) in
  let r := main env args in
  let states := states_of initial_state (rounds r) in
  List.Forall (fun st => 1 <= hostsCopiedTo st <= n) states
  /\ (forall k st st', states !! k = Some st -> states !! S k = Some st' ->
        hostsCopiedTo st < n /\ hostsCopiedTo st < hostsCopiedTo st')
  /\ List.Forall (fun rd => round_pairs rd <> []) (rounds r)
  /\ (forall k st rd, states !! k = Some st -> rounds r !! k = Some rd ->
        hostsCopiedTo (round_after rd)
        = hostsCopiedTo st + Z.of_nat (length (round_pairs rd)))
  /\ (forall sourcePath destPath,
        exists_ env RSYNC_EXE = true -> exists_ env SSH_EXE = true ->
        normalize_paths env (args_path args) = inr (sourcePath, destPath) ->
        final r = Finished
        /\ exists st, last states = Some st /\ hostsCopiedTo st = n)
  /\ (exists_ env RSYNC_EXE = false \/ exists_ env SSH_EXE = false
      \/ (exists f, normalize_paths env (args_path args) = inl f) ->
      exists f, final r = SystemExit f /\ rounds r = []).
Proof.
  intros n r states.
  destruct (build_destinations_head (hostname env) (args_destinations args)) as [tl Htl].
  assert (Hn : 1 <= n) by (unfold n; rewrite Htl; simpl length; lia).
  assert (Hlast : forall news, exists st, last (states_of initial_state news) = Some st).
  { intros news. unfold states_of.
    destruct (last (initial_state :: map round_after news)) as [st|] eqn:E; [eauto|].
    apply last_None in E. discriminate. }
  destruct (main_cases env args)
    as [(f & Hmain & _) | (sp & dp & news & Hrsync & Hssh & Hnorm & _ & Hmain & Hr)];
    fold n in Hr || idtac.
  - assert (Hfatal : forall sourcePath destPath,
               exists_ env RSYNC_EXE = true -> exists_ env SSH_EXE = true ->
               normalize_paths env (args_path args) = inr (sourcePath, destPath) -> False).
    { intros sourcePath destPath H1 H2 H3.
      destruct (main_passes env args sourcePath destPath H1 H2 H3) as (news & Hpass & _).
      rewrite Hpass in Hmain. discriminate. }
    unfold states, r; rewrite Hmain; cbn [rounds final].
    split; [constructor; [simpl; lia | constructor]|].
    split; [intros k st st' _ H; destruct k; discriminate|].
    split; [constructor|].
    split; [intros k st rd _ H; destruct k; discriminate|].
    split; [intros sourcePath destPath H1 H2 H3; destruct (Hfatal _ _ H1 H2 H3)|].
    intros _. eauto.
  - unfold states, r; rewrite Hmain; cbn [rounds final].
    split; [apply (rounds_from_bounds n news initial_state); [simpl; lia | exact Hr]|].
    split; [intros k st st'; apply (rounds_from_increasing n news); exact Hr|].
    split; [eapply List.Forall_impl; [|exact (rounds_from_pairs n news _ Hr)]; simpl; tauto|].
    split; [intros k st rd; apply (rounds_from_count n news); exact Hr|].
    split.
    + intros _ _ _ _ _. split; [reflexivity|].
      destruct (Hlast news) as (st & Hst). exists st. split; [exact Hst|].
      exact (rounds_from_last n news initial_state st Hr Hst).
    + intros [H | [H | (f & H)]]; congruence.
Qed.

Lemma C6_hostsCopiedTo_invariant_witness :
  final (main (demo_env 0) args_one_destination) = Finished
  /\ exists st,
       last (states_of initial_state (rounds (main (demo_env 0) args_one_destination)))
       = Some st
       /\ hostsCopiedTo st = 2.
Proof.
  destruct (C6_hostsCopiedTo_invariant (demo_env 0) args_one_destination)
    as (_ & _ & _ & _ & H & _).
  apply (H "/a/f" "/a/f"); reflexivity.
Defined.

(** C7 (confirmed).  In every run of the script no index error is raised, and
    every pair [(h, d)] scheduled in any round has [d = h + copies] for the
    step [copies] of that round with [0 <= h < d < n], [n] the length of the
    roster; both [destinations[h]] and [destinations[h + copies]] are
    entries of the roster. *)
Theorem C7_destination_index_in_bounds (env : Env) (args : Args) :
  let destinations := build_destinations (hostname env) (args_destinations args) in
  let n := Z.of_nat (length destinations) in
  let r := main env args in
  (forall e, final r <> Traceback e)
  /\ List.Forall
       (fun rd =>
          List.Forall
            (fun hd =>
               snd hd = fst hd + round_copies rd
               /\ 0 <= fst hd /\ fst hd < snd hd /\ snd hd < n
               /\ (exists src, Py.index destinations (fst hd) = inr src)
               /\ (exists hostToAdd, Py.index destinations (snd hd) = inr hostToAdd))
            (round_pairs rd))
       (rounds r).
Proof.
  intros destinations n r.
  destruct (main_cases env args) as [(f & Hmain & _) | (sp & dp & news & _ & _ & _ & _ & Hmain & Hr)];
    unfold r; rewrite Hmain; cbn [rounds final].
  - split; [discriminate | constructor].
  - split; [discriminate|].
    eapply List.Forall_impl; [|exact (rounds_from_pairs _ _ _ Hr)].
    intros rd (_ & Hok & _). eapply List.Forall_impl; [|exact Hok].
    intros [h d] (H0 & Hd & Hlt & Hn). simpl in *. fold destinations in Hn. fold n in Hn.
    repeat split; try lia; apply index_in_range; fold n; lia.
Qed.

(** C10 (confirmed).  When the stripped, absolute source path ends neither in
    [/*] nor in [/] and is an existing regular file, the destination path the
    script computes is that source path itself. *)
Theorem C10_file_destination_is_source (env : Env) (path : string) :
  let sourcePath := posixpath.abspath (cwd env) (Py.strip path) in
  Py.endswith sourcePath "/*" = false ->
  Py.endswith sourcePath "/" = false ->
  kind env sourcePath = RegularFile ->
  normalize_paths env path = inr (sourcePath, sourcePath).
Proof.
  intros sourcePath Hglob Hslash Hfile. unfold normalize_paths.
  fold sourcePath. rewrite Hglob, Hslash. unfold isdir, isfile. rewrite Hfile. reflexivity.
Qed.

Lemma C10_file_destination_is_source_witness :
  normalize_paths (demo_env 0) " /a/f" = inr ("/a/f", "/a/f").
Proof.
  apply (C10_file_destination_is_source (demo_env 0) " /a/f"); reflexivity.
Defined.




(** C9 (counterexample).  With an empty [-d] list the script does not stop:
    the list splits into the single entry [""], a copy to the host [""] is
    planned and run, and the process ends with exit status [0]. *)
Lemma C9_counterexample :
  args_destinations args_no_destination = ""
  /\ build_destinations "h0" (args_destinations args_no_destination) = ["h0"; ""]
  /\ exit_status (final (main (demo_env 0) args_no_destination)) = Some 0
  /\ commands_executed (main (demo_env 0) args_no_destination)
     = ["/usr/bin/ssh h0 /usr/bin/rsync -av /a/b :/a"].
Proof. repeat split; vm_compute; reflexivity. Qed.

(** C9 (corrected).  When rsync or ssh is missing, or when the path the
    script tests (the absolute source path, without its last character when
    it ends in [/*] or [/]) is neither a directory nor a regular file, the
    script logs an error and exits with status [1] before the first round:
    no round is planned and no command is run.  (The destination list is not
    checked.) *)
Theorem C9_startup_fatal (env : Env) (args : Args) :
  exists_ env RSYNC_EXE = false
  \/ exists_ env SSH_EXE = false
  \/ (isdir env (checked_path env (args_path args)) = false
      /\ isfile env (checked_path env (args_path args)) = false) ->
  exists f,
    final (main env args) = SystemExit f
    /\ code f = 1
    /\ exit_status (final (main env args)) = Some 1
    /\ error_log (final (main env args)) = [logged f]
    /\ rounds (main env args) = []
    /\ commands_executed (main env args) = [].
Proof.
  intros Hbad.
  assert (Hdie : exists f, main env args = {| final := SystemExit f; rounds := [] |}
                           /\ code f = 1).
  { unfold main, checkExe.
    destruct (exists_ env RSYNC_EXE) eqn:Hrsync; simpl; [|eexists; split; reflexivity].
    destruct (exists_ env SSH_EXE) eqn:Hssh; simpl; [|eexists; split; reflexivity].
    destruct Hbad as [Hbad | [Hbad | [Hdir Hfile]]]; try discriminate.
    destruct (normalize_paths env (args_path args)) as [f | [sp dp]] eqn:Hnorm.
    { exists f. split; [reflexivity | exact (normalize_paths_code _ _ _ Hnorm)]. }
    exfalso. revert Hnorm Hdir Hfile. unfold normalize_paths, checked_path, checkDir.
    destruct (Py.endswith _ "/*"); simpl.
    { intros Hnorm Hdir _. rewrite Hdir in Hnorm. discriminate. }
    destruct (Py.endswith _ "/"); simpl.
    { intros Hnorm Hdir _. rewrite Hdir in Hnorm. discriminate. }
    intros Hnorm Hdir Hfile. rewrite Hdir, Hfile in Hnorm. discriminate. }
  destruct Hdie as (f & Hmain & Hcode). exists f. rewrite Hmain. cbn.
  rewrite Hcode. repeat split; reflexivity.
Qed.

Lemma C9_startup_fatal_witness :
  exists f,
    final (main demo_env_no_rsync args_one_destination) = SystemExit f
    /\ code f = 1
    /\ exit_status (final (main demo_env_no_rsync args_one_destination)) = Some 1
    /\ error_log (final (main demo_env_no_rsync args_one_destination)) = [logged f]
    /\ rounds (main demo_env_no_rsync args_one_destination) = []
    /\ commands_executed (main demo_env_no_rsync args_one_destination) = [].
Proof.
  apply (C9_startup_fatal demo_env_no_rsync args_one_destination).
  left. reflexivity.
Defined.

(** C2 (code bug).  On a roster of three hosts the loop runs one round, for
    any outcome of the commands and any scheduling of the workers, where the
    claim asks for [ceil(log2 3) = 2] rounds: the round pairs [h0] with [h1]
    and [h1] with [h2] at once. *)
Theorem C2_three_hosts_one_round (env : Env) (processTotal : Z)
    (sourcePath destPath : string) :
  exists rd,
    sync_loop 3 env three_hosts 3 processTotal sourcePath destPath initial_state []
    = {| final := Finished; rounds := [rd] |}
    /\ round_pairs rd = [(0, 1); (1, 2)]
    /\ hostsCopiedTo (round_after rd) = 3
    /\ Z.log2_up 3 = 2.
Proof.
  destruct (sync_loop_first_round env three_hosts processTotal sourcePath destPath 2)
    as (rd & Hrun & _ & Hpairs & Hafter); [simpl; lia|].
  exists rd. split; [exact Hrun|]. split; [exact Hpairs|].
  split; [rewrite Hafter; reflexivity | reflexivity].
Qed.

(** C3 (code bug).  On the roster [h0..h4] the loop runs a single round, with
    step [1], that schedules the four pairs [h0->h1], [h1->h2], [h2->h3],
    [h3->h4]; [hostsCopiedTo] is [5] after that round.  The claim asks for
    three rounds with the pairs [h0->h1], then [h0->h2, h1->h3], then
    [h0->h4]. *)
Theorem C3_five_hosts_schedule (env : Env) (processTotal : Z)
    (sourcePath destPath : string) :
  exists rd,
    sync_loop 5 env five_hosts 5 processTotal sourcePath destPath initial_state []
    = {| final := Finished; rounds := [rd] |}
    /\ round_copies rd = 1
    /\ round_pairs rd = [(0, 1); (1, 2); (2, 3); (3, 4)]
    /\ round_pairs rd <> [(0, 1)]
    /\ hostsCopiedTo (round_after rd) = 5.
Proof.
  destruct (sync_loop_first_round env five_hosts processTotal sourcePath destPath 4)
    as (rd & Hrun & Hstep & Hpairs & Hafter); [simpl; lia|].
  exists rd. split; [exact Hrun|]. split; [exact Hstep|]. split; [exact Hpairs|].
  split; [rewrite Hpairs; discriminate | rewrite Hafter; reflexivity].
Qed.
(** C4 (code bug).  A fresh worker that dequeues a task whose command returns
    a nonzero code runs the command and then raises [AttributeError]: the
    message of its error log reads [self.__command], that is the attribute
    [_CommandProcess__command], which no [CommandProcess] has (the command is
    an attribute of the task).  The worker leaves its loop with that
    exception: its [ok] flag is still true, the task is not acknowledged, and
    the rest of the queue, the poison pill included, is left where it is. *)
Theorem C4_worker_crashes_on_failure (env : Env) (cmd : string) (rtn : Z)
    (stdout stderr : string) (rest : list (option (gmap string Py.PyVal))) :
  runCommand env cmd = inr (rtn, stdout, stderr) ->
  rtn <> 0 ->
  let r := CommandProcess_run env CommandProcess_init (Some (CommandTask_init cmd) :: rest) in
  w_status (wr_worker r) = Crashed (Py.AttributeError "_CommandProcess__command")
  /\ Py.getattr (w_self (wr_worker r)) (Py.mangle "CommandProcess" "__ok")
     = inr (Py.VBool true)
  /\ wr_ran r = [cmd]
  /\ wr_acks r = 0
  /\ wr_queue r = rest.
Proof.
  intros Hrun Hrtn r. unfold r. cbn [CommandProcess_run]. rewrite run_body_task.
  assert (Hf : failing env cmd = true).
  { unfold failing. rewrite Hrun. destruct (rtn =? 0) eqn:E; [|reflexivity].
    apply Z.eqb_eq in E. contradiction. }
  assert (Hs : started env cmd = true).
  { revert Hrun. unfold runCommand, started.
    destruct (runCommand_result env cmd); [discriminate | reflexivity]. }
  assert (Hd : death env cmd = Py.AttributeError "_CommandProcess__command").
  { unfold death. rewrite Hrun. reflexivity. }
  rewrite Hf, Hs, Hd. cbn. repeat split; reflexivity.
Qed.

Lemma C4_worker_crashes_on_failure_witness :
  w_status (wr_worker (CommandProcess_run (demo_env 1) CommandProcess_init
                         [Some (CommandTask_init "c1"); Some (CommandTask_init "c2"); None]))
  = Crashed (Py.AttributeError "_CommandProcess__command")
  /\ wr_queue (CommandProcess_run (demo_env 1) CommandProcess_init
                 [Some (CommandTask_init "c1"); Some (CommandTask_init "c2"); None])
     = [Some (CommandTask_init "c2"); None].
Proof.
  pose proof (C4_worker_crashes_on_failure (demo_env 1) "c1" 1 "" ""
                [Some (CommandTask_init "c2"); None]) as H.
  cbv zeta in H. destruct H as (Hs & _ & _ & _ & Hq); [reflexivity | lia|].
  split; [exact Hs | exact Hq].
Defined.

(** C5 (code bug).  For the source path [/a/b/] with [/a/b] a directory,
    [os.path.abspath] removes the trailing slash, the branch for a path
    ending in [/] is not taken, and the script computes the destination path
    [/a], the parent, where the claim asks for [/a/b/]. *)
Theorem C5_trailing_slash_is_lost (env : Env) :
  kind env "/a/b" = Directory ->
  posixpath.abspath (cwd env) (Py.strip "/a/b/") = "/a/b"
  /\ normalize_paths env "/a/b/" = inr ("/a/b", "/a").
Proof.
  intros Hdir.
  assert (Habs : posixpath.abspath (cwd env) (Py.strip "/a/b/") = "/a/b") by reflexivity.
  split; [exact Habs|]. unfold normalize_paths. rewrite Habs.
  change (Py.endswith "/a/b" "/*") with false.
  change (Py.endswith "/a/b" "/") with false.
  unfold isdir. rewrite Hdir. reflexivity.
Qed.

Lemma C5_trailing_slash_is_lost_witness :
  normalize_paths (demo_env 0) "/a/b/" = inr ("/a/b", "/a").
Proof.
  exact (proj2 (C5_trailing_slash_is_lost (demo_env 0) eq_refl)).
Defined.

(** C8 (code bug).  On host [h0] the list [h1, h0] gives the roster
    [h0; h1; h0]: the entry [" h0"] differs from the host name when it is
    compared, and is stripped only when it is appended, so the source host
    is in the roster again at index 2. *)
Theorem C8_source_host_kept_after_strip :
  build_destinations "h0" "h1, h0" = ["h0"; "h1"; "h0"]
  /\ Py.index (build_destinations "h0" "h1, h0") 2 = inr "h0".
Proof. split; vm_compute; reflexivity. Qed.

(** ** Checks of the string and path primitives *)

Example strip_ex : Py.strip "  /a/b/ " = "/a/b/".
Proof. reflexivity. Qed.

Example split_ex : Py.split "," "h1,,h2 ,h3" = ["h1"; ""; "h2 "; "h3"].
Proof. reflexivity. Qed.

Example split_empty_ex : Py.split "," "" = [""].
Proof. reflexivity. Qed.

Example endswith_ex :
  Py.endswith "/a/b/*" "/*" = true /\ Py.endswith "*" "/*" = false.
Proof. split; reflexivity. Qed.

Example normpath_ex :
  posixpath.normpath "/a/b/" = "/a/b"
  /\ posixpath.normpath "/a/./b/../c//d" = "/a/c/d"
  /\ posixpath.normpath "//" = "//"
  /\ posixpath.normpath "///x/.." = "/"
  /\ posixpath.normpath "../a/../.." = "../..".
Proof. repeat split; reflexivity. Qed.

Example abspath_ex :
  posixpath.abspath "/home/u" "data/*" = "/home/u/data/*"
  /\ posixpath.abspath "/home/u" "/a/b/" = "/a/b".
Proof. split; reflexivity. Qed.

Example split_path_ex :
  posixpath.split "/a/b" = ("/a", "b") /\ posixpath.split "/a" = ("/", "a")
  /\ posixpath.split "a" = ("", "a") /\ posixpath.split "//a" = ("//", "a").
Proof. repeat split; reflexivity. Qed.

Example glob_destination_ex :
  normalize_paths (demo_env 0) "/a/b/*" = inr ("/a/b/*", "/a/b/").
Proof. reflexivity. Qed.

Example directory_destination_ex :
  normalize_paths (demo_env 0) "/a/b" = inr ("/a/b", "/a").
Proof. reflexivity. Qed.

Example start_order_ex :
  executed
    (fst (pool_run demo_env_interleaved 0 8 0
            {| workers := [fresh_worker; fresh_worker]; unfinished := 4;
               executed := []; never_started := [] |}
            [Some (CommandTask_init "c1"); Some (CommandTask_init "c2"); None; None]))
  = ["c2"; "c1"].
Proof. vm_compute. reflexivity. Qed.

Example refused_command_ex :
  pool_run demo_env_raising 0 4 0
    {| workers := [fresh_worker]; unfinished := 2; executed := []; never_started := [] |}
    [Some (CommandTask_init "c2"); None]
  = ({| workers := [{| w_self := CommandProcess_init; w_status := Crashed Py.ValueError;
                       w_held := None |}];
        unfinished := 2; executed := []; never_started := ["c2"] |},
     [None]).
Proof. vm_compute. reflexivity. Qed.

Example undecodable_output_ex :
  pool_run demo_env_raising 0 4 0
    {| workers := [fresh_worker]; unfinished := 2; executed := []; never_started := [] |}
    [Some (CommandTask_init "c3"); None]
  = ({| workers := [{| w_self := CommandProcess_init;
                       w_status := Crashed Py.UnicodeDecodeError; w_held := None |}];
        unfinished := 2; executed := ["c3"]; never_started := [] |},
     [None]).
Proof. vm_compute. reflexivity. Qed.

(** ** Further properties: the workers of a round *)


(** X2.  In every round, whatever the interleaving of the workers, every
    planned command is in exactly one place when the workers have ended: the
    commands for which a process was started, the commands dequeued for
    which [runCommand] raised before a process existed, and the commands of
    the tasks still in the queue are together the commands planned for the
    round, each as often as it was planned; and what is still in the queue
    is a tail of what the main process put there. *)
Theorem commands_accounted_once (env : Env) (args : Args) :
  List.Forall
    (fun rd =>
       Permutation (executed (round_pool rd) ++ never_started (round_pool rd)
                    ++ queue_commands (round_left rd))
         (round_commands rd)
       /\ List.Forall (fun cmd => started env cmd = true) (executed (round_pool rd))
       /\ List.Forall (fun cmd => started env cmd = false) (never_started (round_pool rd))
       /\ exists pre,
            map Some (map CommandTask_init (round_commands rd))
            ++ replicate (length (workers (round_pool rd))) None
            = pre ++ round_left rd)
    (rounds (main env args)).
Proof.
  apply main_each_round. intros sp dp round st pl _ destinations n Hplan.
  destruct (round_facts env round destinations n (cpu_count env * 2) sp dp st pl Hplan)
    as (_ & _ & Hlen & Hinv & Hended & Hpre & Hqueue).
  destruct (pool_end _ _ _ _ _ Hinv Hended) as (_ & Hperm & _).
  destruct Hinv as (_ & _ & _ & _ & Hex & Hns & _).
  split; [exact Hperm|]. split; [exact Hex|]. split; [exact Hns|].
  rewrite Hlen, <- Hqueue. exact Hpre.
Qed.

(** X3.  In every round the number of workers that died equals the number of
    dequeued commands on which [runCommand] raised or which returned a
    nonzero code; every other worker consumed one poison pill, so the pills
    left in the queue are as many as the workers that died; and the counter
    of unacknowledged entries of the queue ends at the number of entries
    never dequeued plus the number of workers that died. *)
Theorem crashes_match_failures (env : Env) (args : Args) :
  List.Forall
    (fun rd =>
       count_if crashed (workers (round_pool rd))
       = count_if (failing env)
           (executed (round_pool rd) ++ never_started (round_pool rd))
       /\ (count_if exited (workers (round_pool rd))
           + count_if crashed (workers (round_pool rd))
           = length (workers (round_pool rd)))%nat
       /\ sentinels (round_left rd) = count_if crashed (workers (round_pool rd))
       /\ unfinished (round_pool rd)
          = Z.of_nat (length (round_left rd))
            + Z.of_nat (count_if crashed (workers (round_pool rd))))
    (rounds (main env args)).
Proof.
  apply main_each_round. intros sp dp round st pl _ destinations n Hplan.
  destruct (round_facts env round destinations n (cpu_count env * 2) sp dp st pl Hplan)
    as (_ & _ & Hlen & Hinv & Hended & _).
  destruct (pool_end _ _ _ _ _ Hinv Hended) as (_ & _ & Hun & Hsum & Hpills & _).
  destruct Hinv as (_ & _ & _ & _ & _ & _ & _ & Hcr & _).
  split; [exact Hcr|]. split; [rewrite Hlen; exact Hsum|].
  split; [exact Hpills | exact Hun].
Qed.

(** X4.  Every round starts [min(pairs, processTotal)] workers, where
    [processTotal] is twice the number of processors: one per pair, and never
    more than [processTotal]. *)
Theorem workers_per_round (env : Env) (args : Args) :
  List.Forall
    (fun rd => length (workers (round_pool rd))
               = Nat.min (length (round_pairs rd)) (Z.to_nat (cpu_count env * 2)))
    (rounds (main env args)).
Proof.
  apply main_each_round. intros sp dp round st pl _ destinations n Hplan.
  destruct (round_facts env round destinations n (cpu_count env * 2) sp dp st pl Hplan)
    as (_ & _ & Hlen & _).
  exact Hlen.
Qed.

(** X5.  The command lines of a round are, pair by pair and in order,
    [ssh src rsync -av sourcePath dst:destPath] with [src] and [dst] the
    roster entries at the two indices of the pair and the two paths those
    computed at start-up. *)
Theorem commands_of_pairs (env : Env) (args : Args) (sourcePath destPath : string) :
  normalize_paths env (args_path args) = inr (sourcePath, destPath) ->
  List.Forall
    (fun rd =>
       Forall2
         (fun cmd hd => exists src hostToAdd,
              Py.index (build_destinations (hostname env) (args_destinations args)) (fst hd)
              = inr src
              /\ Py.index (build_destinations (hostname env) (args_destinations args)) (snd hd)
                 = inr hostToAdd
              /\ cmd = copy_command src sourcePath hostToAdd destPath)
         (round_commands rd) (round_pairs rd))
    (rounds (main env args)).
Proof.
  intros Hnorm. apply main_each_round. intros sp dp round st pl Hnorm' destinations n Hplan.
  rewrite Hnorm in Hnorm'. injection Hnorm' as <- <-.
  destruct (round_facts env round destinations n (cpu_count env * 2) sourcePath destPath
              st pl Hplan) as (_ & Hcmds & _).
  exact Hcmds.
Qed.

Lemma commands_of_pairs_witness :
  List.Forall
    (fun rd =>
       Forall2
         (fun cmd hd => exists src hostToAdd,
              Py.index (build_destinations "h0" "h1") (fst hd) = inr src
              /\ Py.index (build_destinations "h0" "h1") (snd hd) = inr hostToAdd
              /\ cmd = copy_command src "/a/f" hostToAdd "/a/f")
         (round_commands rd) (round_pairs rd))
    (rounds (main (demo_env 0) args_one_destination)).
Proof.
  apply (commands_of_pairs (demo_env 0) args_one_destination "/a/f" "/a/f").
  reflexivity.
Defined.

(** X6.  When every command completes with return code [0] and the machine
    has at least one processor, then in every round, whatever the
    interleaving of the workers, the commands for which a process was
    started are exactly the planned commands (in some order), no command
    was refused, all workers leave their loop on a poison pill, the queue is
    empty and every entry has been acknowledged. *)
Theorem all_copies_succeed (env : Env) (args : Args) :
  (forall cmd, exists stdout stderr, runCommand env cmd = inr (0, stdout, stderr)) ->
  1 <= cpu_count env ->
  List.Forall
    (fun rd =>
       Permutation (executed (round_pool rd)) (round_commands rd)
       /\ never_started (round_pool rd) = []
       /\ round_left rd = []
       /\ unfinished (round_pool rd) = 0
       /\ List.Forall (fun w => w_status w = Exited) (workers (round_pool rd)))
    (rounds (main env args)).
Proof.
  intros Hok Hcpu. apply main_each_round. intros sp dp round st pl _ destinations n Hplan.
  destruct (round_facts env round destinations n (cpu_count env * 2) sp dp st pl Hplan)
    as (_ & Hcmds & Hlen & Hinv & Hended & (pre & Hpre) & Hqueue).
  destruct (pool_end _ _ _ _ _ Hinv Hended) as (Hw & Hperm & Hun & Hsum & Hpills & _).
  destruct Hinv as (_ & _ & _ & _ & _ & Hns & _ & Hcr & _).
  set (rd := round_of env round n st pl) in *.
  assert (Hfail : forall cmd, failing env cmd = false).
  { intros cmd. destruct (Hok cmd) as (out & err & Hrun). unfold failing. rewrite Hrun.
    reflexivity. }
  assert (Hnone : count_if crashed (workers (round_pool rd)) = 0%nat).
  { rewrite Hcr. apply count_if_none. intros cmd _. apply Hfail. }
  assert (Hrefused : never_started (round_pool rd) = []).
  { destruct (never_started (round_pool rd)) as [|cmd l]; [reflexivity|].
    inversion Hns as [|c l' Hc _]; subst c l'.
    rewrite (failing_started env cmd (Hfail cmd)) in Hc. discriminate. }
  assert (Hleft : round_left rd = []).
  { assert (Hs : sentinels (round_left rd) = 0%nat) by lia.
    destruct (Nat.min (length (round_pairs rd)) (Z.to_nat (cpu_count env * 2))) as [|k] eqn:Hk.
    - assert (Hm : length (round_pairs rd) = 0%nat) by lia.
      apply Forall2_length in Hcmds. rewrite Hm in Hcmds.
      destruct (round_commands rd); [|discriminate]. simpl in Hqueue.
      rewrite Hqueue in Hpre. symmetry in Hpre. apply List.app_eq_nil in Hpre. exact (proj2 Hpre).
    - rewrite replicate_S_end, app_assoc in Hqueue. rewrite Hqueue in Hpre.
      destruct (round_left rd) as [|e l] eqn:Hl using rev_ind; [reflexivity|].
      rewrite app_assoc in Hpre. apply app_inj_tail in Hpre. destruct Hpre as (_ & <-).
      rewrite sentinels_app in Hs. simpl in Hs. lia. }
  split.
  { rewrite Hrefused, Hleft in Hperm. cbn [queue_commands flat_map app] in Hperm.
    rewrite app_nil_r in Hperm. exact Hperm. }
  split; [exact Hrefused|]. split; [exact Hleft|].
  split; [rewrite Hun, Hleft, Hnone; reflexivity|].
  apply List.Forall_forall. intros w Hin.
  destruct (proj1 (List.Forall_forall _ _) Hw w Hin) as (_ & _ & [Hs | (cmd & _ & Hf & _)]);
    [exact Hs | rewrite Hfail in Hf; discriminate].
Qed.

Lemma all_copies_succeed_witness :
  List.Forall
    (fun rd =>
       Permutation (executed (round_pool rd)) (round_commands rd)
       /\ never_started (round_pool rd) = []
       /\ round_left rd = []
       /\ unfinished (round_pool rd) = 0
       /\ List.Forall (fun w => w_status w = Exited) (workers (round_pool rd)))
    (rounds (main (demo_env 0) args_one_destination)).
Proof.
  apply (all_copies_succeed (demo_env 0) args_one_destination).
  - intros cmd. exists EmptyString, EmptyString. reflexivity.
  - simpl. lia.
Defined.

(** ** Further properties: the runs of the script *)

(** X7.  A run that gets past start-up has no round when the roster is the
    source host alone, and otherwise exactly one round: with step [1] it
    pairs every roster index [h] but the last with [h + 1], so each index
    from [1] to [n - 1] is the destination of exactly one copy and
    [hostsCopiedTo] ends at [n]. *)
Theorem run_has_one_round (env : Env) (args : Args) :
  final (main env args) = Finished ->
  let n := Z.of_nat (length (build_destinations (hostname env) (args_destinations args))) in
  (n = 1 /\ rounds (main env args) = [])
  \/ (2 <= n
      /\ exists rd,
           rounds (main env args) = [rd]
           /\ round_copies rd = 1
           /\ round_pairs rd = map (fun h => (h, h + 1)) (Py.range0 (n - 1))
           /\ map snd (round_pairs rd) = map (fun h => h + 1) (Py.range0 (n - 1))
           /\ hostsCopiedTo (round_after rd) = n).
Proof.
  intros Hfin n.
  destruct (main_cases env args)
    as [(f & Hmain & _) | (sp & dp & news & _ & _ & _ & Hloop & _ & _)].
  { rewrite Hmain in Hfin. discriminate. }
  destruct (build_destinations_head (hostname env) (args_destinations args)) as [tl Htl].
  fold n in Hloop. rewrite Hloop.
  destruct tl as [|d tl].
  - left. assert (Hn : n = 1) by (unfold n; rewrite Htl; reflexivity).
    split; [exact Hn|]. rewrite sync_loop_done; [reflexivity | simpl; lia].
  - right. assert (Hn : 2 <= n) by (unfold n; rewrite Htl; simpl length; lia).
    split; [exact Hn|].
    assert (Hlen : length (build_destinations (hostname env) (args_destinations args))
                   = S (S (length tl))) by (rewrite Htl; reflexivity).
    rewrite Hlen.
    destruct (sync_loop_first_round env
                (build_destinations (hostname env) (args_destinations args))
                (cpu_count env * 2) sp dp (S (length tl)))
      as (rd & Hrun & Hstep & Hpairs & Hafter); [exact Hn|].
    fold n in Hrun, Hpairs, Hafter. rewrite Hrun. exists rd.
    split; [reflexivity|]. split; [exact Hstep|]. split; [exact Hpairs|].
    split; [rewrite Hpairs, map_map; reflexivity | rewrite Hafter; reflexivity].
Qed.

Lemma run_has_one_round_witness :
  exists rd,
    rounds (main (demo_env 0) args_one_destination) = [rd]
    /\ round_pairs rd = [(0, 1)].
Proof.
  destruct (run_has_one_round (demo_env 0) args_one_destination) as [(Hn & _) | (_ & rd & Hr & _ & Hp & _)].
  - vm_compute. reflexivity.
  - vm_compute in Hn. discriminate.
  - exists rd. split; [exact Hr | exact Hp].
Defined.

(** X8.  Started in any state with [1 <= hostsCopiedTo <= n], [i >= 0] and
    [copies >= 1] on a roster of [n] hosts, the round loop ends normally
    after at most [n - hostsCopiedTo] rounds, in a state with
    [hostsCopiedTo = n]; all the states on the way keep
    [1 <= hostsCopiedTo <= n], and every round schedules at least one pair,
    all of its pairs [(h, h + copies)] lying within the roster. *)
Theorem loop_from_any_state (env : Env) (destinations : list string) (processTotal : Z)
    (sourcePath destPath : string) (st : State) (fuel : nat) :
  let n := Z.of_nat (length destinations) in
  1 <= hostsCopiedTo st <= n -> 0 <= i st -> 1 <= copies st ->
  n - hostsCopiedTo st <= Z.of_nat fuel ->
  exists news,
    sync_loop fuel env destinations n processTotal sourcePath destPath st []
    = {| final := Finished; rounds := news |}
    /\ Z.of_nat (length news) <= n - hostsCopiedTo st
    /\ List.Forall (fun s => 1 <= hostsCopiedTo s <= n) (states_of st news)
    /\ (forall s, last (states_of st news) = Some s -> hostsCopiedTo s = n)
    /\ List.Forall
         (fun rd => round_pairs rd <> []
                    /\ List.Forall
                         (fun hd => snd hd = fst hd + round_copies rd
                                    /\ 0 <= fst hd /\ fst hd < snd hd /\ snd hd < n)
                         (round_pairs rd))
         news.
Proof.
  intros n Hst Hi Hc Hfuel.
  destruct (sync_loop_rounds env destinations processTotal sourcePath destPath
              fuel st [] Hst Hi Hc Hfuel) as (news & Hloop & Hr).
  fold n in Hloop, Hr. exists news. simpl in Hloop.
  split; [exact Hloop|].
  split; [exact (rounds_from_length n news st Hr)|].
  split; [exact (rounds_from_bounds n news st Hst Hr)|].
  split; [intros s; exact (rounds_from_last n news st s Hr)|].
  eapply List.Forall_impl; [|exact (rounds_from_pairs n news st Hr)].
  intros rd (Hne & Hok & _). split; [exact Hne|].
  eapply List.Forall_impl; [|exact Hok]. intros hd (H0 & Hd & Hlt & Hn). auto.
Qed.

Lemma loop_from_any_state_witness :
  exists news,
    sync_loop 3 (demo_env 0) five_hosts 5 4 "/a/b" "/a"
      {| hostsCopiedTo := 2; i := 1; copies := 2 |} []
    = {| final := Finished; rounds := news |}
    /\ Z.of_nat (length news) <= 3.
Proof.
  destruct (loop_from_any_state (demo_env 0) five_hosts 4 "/a/b" "/a"
              {| hostsCopiedTo := 2; i := 1; copies := 2 |} 3)
    as (news & Hloop & Hlen & _); simpl; try lia.
  exists news. split; [exact Hloop | exact Hlen].
Defined.


(** ** Further properties: the roster *)

Lemma build_destinations_fold (hostname : string) (ds acc : list string) :
  fold_left
    (fun destinations d =>
       if negb (String.eqb d hostname) then destinations ++ [Py.strip d] else destinations)
    ds acc
  = acc ++ map Py.strip (List.filter (fun d => negb (String.eqb d hostname)) ds).
Proof.
  revert acc. induction ds as [|d ds IH]; intros acc; simpl; [now rewrite app_nil_r|].
  rewrite IH. destruct (negb (String.eqb d hostname)); [|reflexivity].
  simpl. rewrite <- app_assoc. reflexivity.
Qed.

(** X10.  The roster is the host name followed by the entries of the
    comma-separated list that differ from the host name, each stripped, in
    the order of the list; entries that are equal to each other are all
    kept. *)
Theorem roster_is_filtered_list (hostname arg : string) :
  build_destinations hostname arg
  = hostname
    :: map Py.strip
         (List.filter (fun d => negb (String.eqb d hostname)) (Py.split "," arg)).
Proof. unfold build_destinations. apply build_destinations_fold. Qed.

(** X11.  When no entry of the list carries white space around it, the host
    name occurs in the roster at index [0] only. *)
Theorem roster_excludes_source (hostname arg : string) (k : nat) :
  (forall d, In d (Py.split "," arg) -> Py.strip d = d) ->
  (1 <= k)%nat ->
  build_destinations hostname arg !! k <> Some hostname.
Proof.
  intros Hclean Hk Hlook. unfold build_destinations in Hlook.
  rewrite build_destinations_fold in Hlook.
  destruct k as [|k]; [lia|]. simpl in Hlook.
  apply list_elem_of_lookup_2, list_elem_of_In, in_map_iff in Hlook.
  destruct Hlook as (d & Hd & Hin). apply filter_In in Hin. destruct Hin as (Hin & Hne).
  rewrite (Hclean d Hin) in Hd. subst d. rewrite String.eqb_refl in Hne. discriminate.
Qed.

Lemma roster_excludes_source_witness :
  build_destinations "h0" "h1,h0,h2" !! 2%nat <> Some "h0".
Proof.
  apply (roster_excludes_source "h0" "h1,h0,h2" 2).
  - intros d Hin. simpl in Hin.
    destruct Hin as [<- | [<- | [<- | []]]]; reflexivity.
  - lia.
Defined.

(** ** Further properties: one worker on its own *)

(** ** Further properties: one worker on its own *)

(** X12.  A worker that has the queue to itself and whose commands all
    complete with return code [0] runs them in the order of the queue,
    acknowledges every task and the poison pill, leaves its loop at the
    first pill and does not touch the entries behind it. *)
Theorem worker_runs_until_pill (env : Env) (cmds : list string)
    (rest : list (option (gmap string Py.PyVal))) :
  (forall cmd, In cmd cmds ->
     exists stdout stderr, runCommand env cmd = inr (0, stdout, stderr)) ->
  CommandProcess_run env CommandProcess_init
    (map Some (map CommandTask_init cmds) ++ None :: rest)
  = {| wr_worker := {| w_self := CommandProcess_init; w_status := Exited;
                       w_held := None |};
       wr_acks := Z.of_nat (length cmds) + 1;
       wr_ran := cmds;
       wr_refused := [];
       wr_queue := rest |}.
Proof.
  induction cmds as [|c cmds IH]; intros Hok.
  - reflexivity.
  - cbn [map app CommandProcess_run]. rewrite run_body_task.
    assert (Hc : failing env c = false).
    { destruct (Hok c) as (out & err & Hrun); [left; reflexivity|].
      unfold failing. rewrite Hrun. reflexivity. }
    rewrite Hc.
    cbn [after fresh_worker w_status w_self acks ran refused].
    rewrite IH by (intros cmd Hin; apply Hok; right; exact Hin).
    cbn [wr_worker wr_acks wr_ran wr_refused wr_queue app]. f_equal. cbn [length]. lia.
Qed.

Lemma worker_runs_until_pill_witness :
  CommandProcess_run (demo_env 0) CommandProcess_init
    (map Some (map CommandTask_init ["c1"; "c2"]) ++ None :: [None])
  = {| wr_worker := {| w_self := CommandProcess_init; w_status := Exited;
                       w_held := None |};
       wr_acks := Z.of_nat (length ["c1"; "c2"]) + 1;
       wr_ran := ["c1"; "c2"];
       wr_refused := [];
       wr_queue := [None] |}.
Proof.
  apply (worker_runs_until_pill (demo_env 0) ["c1"; "c2"] [None]).
  intros cmd _. exists EmptyString, EmptyString. reflexivity.
Defined.

(** X13.  A worker that has the queue to itself runs the commands of its
    queue up to the first one that does not complete with return code [0]
    and dies there, of the exception [runCommand] raised or, when the
    command returned a nonzero code, of the [AttributeError] of the failure
    branch: the commands before it are acknowledged, that command is not
    (it counts as run when a process was started for it, as refused
    otherwise), and nothing behind it is dequeued. *)
Theorem worker_dies_at_first_failure (env : Env) (cmds : list string) (bad : string)
    (rest : list (option (gmap string Py.PyVal))) :
  (forall cmd, In cmd cmds ->
     exists stdout stderr, runCommand env cmd = inr (0, stdout, stderr)) ->
  failing env bad = true ->
  CommandProcess_run env CommandProcess_init
    (map Some (map CommandTask_init cmds) ++ Some (CommandTask_init bad) :: rest)
  = {| wr_worker := {| w_self := CommandProcess_init; w_status := Crashed (death env bad);
                       w_held := None |};
       wr_acks := Z.of_nat (length cmds);
       wr_ran := cmds ++ (if started env bad then [bad] else []);
       wr_refused := if started env bad then [] else [bad];
       wr_queue := rest |}.
Proof.
  intros Hok Hbad. induction cmds as [|c cmds IH].
  - cbn [map app CommandProcess_run]. rewrite run_body_task, Hbad. reflexivity.
  - cbn [map app CommandProcess_run]. rewrite run_body_task.
    assert (Hc : failing env c = false).
    { destruct (Hok c) as (out & err & Hrun); [left; reflexivity|].
      unfold failing. rewrite Hrun. reflexivity. }
    rewrite Hc.
    cbn [after fresh_worker w_status w_self acks ran refused].
    rewrite IH by (intros cmd Hin; apply Hok; right; exact Hin).
    cbn [wr_worker wr_acks wr_ran wr_refused wr_queue app]. f_equal. cbn [length]. lia.
Qed.

Lemma worker_dies_at_first_failure_witness :
  CommandProcess_run demo_env_raising CommandProcess_init
    (map Some (map CommandTask_init ["c1"]) ++ Some (CommandTask_init "c2") :: [None])
  = {| wr_worker := {| w_self := CommandProcess_init; w_status := Crashed Py.ValueError;
                       w_held := None |};
       wr_acks := 1;
       wr_ran := ["c1"];
       wr_refused := ["c2"];
       wr_queue := [None] |}.
Proof.
  apply (worker_dies_at_first_failure demo_env_raising ["c1"] "c2" [None]).
  - intros cmd [<- | []]. exists EmptyString, EmptyString. reflexivity.
  - reflexivity.
Defined.

(** ** Further properties: the source and destination paths *)

Lemma substring_skip (c : ascii) (s : string) (n m : nat) :
  substring (S n) m (String c s) = substring n m s.
Proof. reflexivity. Qed.

Lemma endswith_cons (c : ascii) (s : string) :
  Py.endswith (String c s) "/"
  = match s with
    | EmptyString => Ascii.eqb c "/"
    | String _ _ => Py.endswith s "/"
    end.
Proof.
  destruct s as [|d s].
  - unfold Py.endswith. simpl. destruct (Ascii.eqb_spec c "/") as [-> | Hne]; [reflexivity|].
    destruct (String.eqb_spec (String c "") "/") as [Heq | _]; [congruence | reflexivity].
  - unfold Py.endswith. cbn [String.length].
    replace (S (S (String.length s)) - 1)%nat with (S (String.length s)) by lia.
    replace (S (String.length s) - 1)%nat with (String.length s) by lia.
    rewrite substring_skip. reflexivity.
Qed.

Lemma endswith_last_char (s : string) :
  Py.endswith s "/" = true <-> last_char s = Some "/"%char.
Proof.
  induction s as [|c s IH]; [split; discriminate|].
  rewrite endswith_cons. cbn [last_char]. destruct s as [|d s].
  - simpl. destruct (Ascii.eqb_spec c "/") as [-> | Hne]; split; congruence.
  - rewrite IH. destruct (last_char (String d s)) eqn:E; [tauto|].
    simpl in E. destruct (last_char s); discriminate.
Qed.

Lemma last_char_app (a b : string) :
  b <> EmptyString -> last_char (a +:+ b) = last_char b.
Proof.
  intros Hb. induction a as [|c a IH]; [reflexivity|].
  change (String c a +:+ b) with (String c (a +:+ b)). cbn [last_char]. rewrite IH.
  destruct (last_char b) eqn:E; [reflexivity|].
  destruct b; [contradiction|]. simpl in E. destruct (last_char b); discriminate.
Qed.

Lemma last_char_none (s : string) : last_char s = None -> s = EmptyString.
Proof. destruct s; [reflexivity|]. simpl. destruct (last_char s); discriminate. Qed.

Lemma split_nonempty (sep : ascii) (s : string) : Py.split sep s <> [].
Proof.
  induction s as [|c s IH]; simpl; [discriminate|].
  destruct (Ascii.eqb c sep); [discriminate|]. destruct (Py.split sep s); discriminate.
Qed.

Lemma split_last_char (sep : ascii) (s : string) :
  List.Forall (fun w => last_char w <> Some sep) (Py.split sep s).
Proof.
  induction s as [|c s IH]; simpl.
  - constructor; [discriminate | constructor].
  - destruct (Ascii.eqb_spec c sep) as [-> | Hne].
    + constructor; [discriminate | exact IH].
    + destruct (Py.split sep s) as [|w ws]; [constructor; [simpl; congruence | constructor]|].
      inversion IH as [|? ? Hw Hws]; subst. constructor; [|exact Hws].
      simpl. destruct (last_char w); congruence.
Qed.

Lemma removelast_Forall {A} (P : A -> Prop) (l : list A) :
  List.Forall P l -> List.Forall P (removelast l).
Proof.
  induction 1 as [|x l Hx Hl IH]; [constructor|].
  simpl. destruct l; [constructor | constructor; assumption].
Qed.

Lemma norm_comps_good (k : nat) (comps acc : list string) :
  List.Forall (fun w => last_char w <> Some "/"%char) comps ->
  List.Forall (fun w => w <> EmptyString /\ last_char w <> Some "/"%char) acc ->
  List.Forall (fun w => w <> EmptyString /\ last_char w <> Some "/"%char)
    (fold_left (posixpath.norm_comp k) comps acc).
Proof.
  intros Hcomps. revert acc. induction Hcomps as [|comp comps Hc _ IH]; intros acc Hacc; [exact Hacc|].
  simpl. apply IH. unfold posixpath.norm_comp.
  destruct (String.eqb_spec comp "") as [-> | Hne]; [exact Hacc|]. cbn [orb].
  destruct (String.eqb comp "."); [exact Hacc|].
  match goal with |- context [if ?b then _ else _] => destruct b end.
  - apply List.Forall_app. split; [exact Hacc|]. constructor; [auto | constructor].
  - apply removelast_Forall. exact Hacc.
Qed.

Lemma join_last_char (sep : string) (l : list string) :
  l <> [] ->
  List.Forall (fun w => w <> EmptyString /\ last_char w <> Some "/"%char) l ->
  Py.join sep l <> EmptyString /\ last_char (Py.join sep l) <> Some "/"%char.
Proof.
  unfold Py.join. induction l as [|w l IH]; intros Hne Hall; [contradiction|].
  inversion Hall as [|? ? (Hw & Hlast) Hl]; subst.
  destruct l as [|w' l]; [simpl; auto|].
  destruct IH as (Hj & Hlj); [discriminate | exact Hl|].
  change (String.concat sep (w :: w' :: l))
    with (w +:+ (sep +:+ String.concat sep (w' :: l))).
  split.
  - destruct w; [contradiction | discriminate].
  - rewrite last_char_app.
    + rewrite last_char_app; [exact Hlj | exact Hj].
    + destruct sep; [exact Hj | discriminate].
Qed.

(** X14.  The absolute source path never ends in [/], except when it is [/]
    or [//]: [os.path.abspath] removes every trailing slash, so the branch of
    the script for a source path ending in [/] is taken for these two paths
    only. *)
Theorem abspath_trailing_slash (cwd path : string) :
  Py.endswith (posixpath.abspath cwd path) "/" = true ->
  posixpath.abspath cwd path = "/" \/ posixpath.abspath cwd path = "//".
Proof.
  unfold posixpath.abspath. generalize (if posixpath.isabs path then path
                                        else posixpath.join cwd path).
  intros p. unfold posixpath.normpath.
  destruct (String.eqb p ""); [discriminate|]. cbv zeta.
  set (k := if Py.startswith p "/" then _ else _).
  set (new := fold_left (posixpath.norm_comp k) (Py.split "/" p) []).
  assert (Hgood : List.Forall (fun w => w <> EmptyString /\ last_char w <> Some "/"%char) new).
  { apply norm_comps_good; [apply split_last_char | constructor]. }
  assert (Hk : k = 0%nat \/ k = 1%nat \/ k = 2%nat).
  { unfold k. destruct (Py.startswith p "/"); [|auto].
    destruct (_ && _); auto. }
  destruct new as [|w new'] eqn:Hnew.
  - destruct Hk as [-> | [-> | ->]]; simpl; [discriminate | auto | auto].
  - destruct (join_last_char "/" (w :: new')) as (Hj & Hlast); [discriminate | exact Hgood|].
    assert (Hend : last_char (Py.repeat_str "/" k +:+ Py.join "/" (w :: new'))
                   <> Some "/"%char).
    { rewrite last_char_app; assumption. }
    destruct (String.eqb _ ""); [discriminate|].
    intros H. apply endswith_last_char in H. contradiction.
Qed.

Lemma abspath_trailing_slash_witness :
  posixpath.abspath "/home/u" "//" = "/" \/ posixpath.abspath "/home/u" "//" = "//".
Proof.
  apply (abspath_trailing_slash "/home/u" "//"). reflexivity.
Defined.

Lemma length_append (a b : string) :
  String.length (a +:+ b) = (String.length a + String.length b)%nat.
Proof. induction a as [|c a IH]; simpl; [reflexivity | now rewrite IH]. Qed.

Lemma substring_full (s : string) : substring 0 (String.length s) s = s.
Proof. induction s as [|c s IH]; simpl; [reflexivity | now rewrite IH]. Qed.

Lemma substring_prefix_app (a b : string) (k : nat) :
  substring 0 (String.length a + k) (a +:+ b) = a +:+ substring 0 k b.
Proof. induction a as [|c a IH]; simpl; [reflexivity | now rewrite IH]. Qed.

Lemma substring_split (s : string) (n : nat) :
  (n <= String.length s)%nat ->
  s = substring 0 n s +:+ substring n (String.length s - n) s.
Proof.
  revert n. induction s as [|c s IH]; intros n Hn.
  - destruct n; reflexivity.
  - destruct n as [|n].
    + rewrite Nat.sub_0_r, substring_full. reflexivity.
    + simpl in Hn.
      change (String c s = String c (substring 0 n s +:+ substring n (String.length s - n) s)).
      f_equal. apply IH. lia.
Qed.

Lemma endswith_app (s p : string) :
  Py.endswith s p = true ->
  s = substring 0 (String.length s - String.length p) s +:+ p.
Proof.
  unfold Py.endswith. intros H. apply andb_prop in H. destruct H as (Hlen & Heq).
  apply Nat.leb_le in Hlen. apply String.eqb_eq in Heq.
  rewrite (substring_split s (String.length s - String.length p)) at 1 by lia.
  replace (String.length s - (String.length s - String.length p))%nat
    with (String.length p) by lia.
  rewrite Heq. reflexivity.
Qed.

(** X15.  For a source path that ends in [/*] and whose directory exists,
    the source path is kept as it is and the destination path is the source
    path without the star: the directory, with its trailing slash. *)
Theorem glob_destination (env : Env) (path : string) :
  let sourcePath := posixpath.abspath (cwd env) (Py.strip path) in
  Py.endswith sourcePath "/*" = true ->
  isdir env (Py.drop_last sourcePath) = true ->
  normalize_paths env path = inr (sourcePath, Py.drop_last sourcePath)
  /\ sourcePath = Py.drop_last sourcePath +:+ "*"
  /\ Py.endswith (Py.drop_last sourcePath) "/" = true.
Proof.
  intros sourcePath Hglob Hdir.
  split.
  { unfold normalize_paths, checkDir. fold sourcePath. rewrite Hglob, Hdir. reflexivity. }
  pose proof (endswith_app _ _ Hglob) as Hdecomp.
  set (pre := substring 0 (String.length sourcePath - String.length "/*") sourcePath) in *.
  assert (Hdrop : Py.drop_last sourcePath = pre +:+ "/").
  { unfold Py.drop_last. rewrite Hdecomp at 1 2. rewrite length_append.
    replace (String.length pre + String.length "/*" - 1)%nat
      with (String.length pre + 1)%nat by (simpl; lia).
    rewrite substring_prefix_app. reflexivity. }
  rewrite Hdrop. split.
  - assert (Happ : forall a : string, (a +:+ "/") +:+ "*" = a +:+ "/*").
    { clear. induction a as [|c a IH]; [reflexivity|].
      change (String c ((a +:+ "/") +:+ "*") = String c (a +:+ "/*")). now f_equal. }
    rewrite Happ. exact Hdecomp.
  - apply endswith_last_char. rewrite last_char_app; [reflexivity | discriminate].
Qed.

Lemma glob_destination_witness :
  normalize_paths (demo_env 0) "/a/b/*" = inr ("/a/b/*", "/a/b/")
  /\ "/a/b/*" = "/a/b/" +:+ "*"
  /\ Py.endswith "/a/b/" "/" = true.
Proof.
  apply (glob_destination (demo_env 0) "/a/b/*"); reflexivity.
Defined.

Lemma split_app (sep : ascii) (a b : string) :
  Py.split sep (a +:+ String sep b) = Py.split sep a ++ Py.split sep b.
Proof.
  induction a as [|c a IH].
  - simpl. rewrite Ascii.eqb_refl. reflexivity.
  - change (String c a +:+ String sep b) with (String c (a +:+ String sep b)).
    cbn [Py.split]. rewrite IH. destruct (Ascii.eqb c sep); [reflexivity|].
    destruct (Py.split sep a) as [|w ws] eqn:E; [exact (False_ind _ (split_nonempty sep a E))|].
    reflexivity.
Qed.

Lemma all_slashes_last (s t : string) (m : nat) :
  s +:+ t = Py.repeat_str "/" m -> s <> EmptyString -> last_char s = Some "/"%char.
Proof.
  revert m. induction s as [|c s IH]; intros m Heq Hne; [contradiction|].
  destruct m as [|m]; [discriminate|].
  change (String c s +:+ t) with (String c (s +:+ t)) in Heq.
  change (Py.repeat_str "/" (S m)) with (String "/" (Py.repeat_str "/" m)) in Heq.
  injection Heq as -> Heq. cbn [last_char].
  destruct s as [|d s]; [reflexivity|].
  rewrite (IH m Heq) by discriminate. reflexivity.
Qed.

Lemma rstrip_char_app (ch : ascii) (a : string) :
  a <> EmptyString -> last_char a <> Some ch ->
  Py.rstrip_char ch (a +:+ String ch EmptyString) = a.
Proof.
  induction a as [|c a IH]; intros Hne Hlast; [contradiction|].
  change (String c a +:+ String ch "") with (String c (a +:+ String ch "")).
  cbn [Py.rstrip_char]. destruct a as [|d a].
  - simpl. rewrite Ascii.eqb_refl. simpl.
    destruct (Ascii.eqb_spec c ch) as [-> | _]; [simpl in Hlast; congruence | reflexivity].
  - assert (Hl : last_char (String d a) <> Some ch).
    { intros E. apply Hlast.
      change (last_char (String c (String d a)))
        with (match last_char (String d a) with None => Some c | Some x => Some x end).
      rewrite E. reflexivity. }
    rewrite IH; [|discriminate | exact Hl].
    rewrite andb_false_r. reflexivity.
Qed.

(** X16.  For a source path [parent/name] that is a directory, where [name]
    is not empty and has no slash, the source path is kept and the
    destination path is [parent] (or [/] when [parent] is empty): the item is
    placed into the directory that contains it. *)
Theorem directory_destination_is_parent (env : Env) (path parent name : string) :
  let sourcePath := posixpath.abspath (cwd env) (Py.strip path) in
  sourcePath = parent +:+ "/" +:+ name ->
  name <> EmptyString ->
  Py.split "/" name = [name] ->
  last_char parent <> Some "/"%char ->
  Py.endswith sourcePath "/*" = false ->
  kind env sourcePath = Directory ->
  normalize_paths env path
  = inr (sourcePath, if String.eqb parent "" then "/" else parent).
Proof.
  intros sourcePath Hsp Hname Hsplit Hparent Hglob Hdir.
  assert (Hnl : last_char name <> Some "/"%char).
  { pose proof (split_last_char "/" name) as H. rewrite Hsplit in H.
    inversion H; assumption. }
  assert (Hslash : Py.endswith sourcePath "/" = false).
  { destruct (Py.endswith sourcePath "/") eqn:E; [|reflexivity].
    apply endswith_last_char in E. rewrite Hsp in E.
    rewrite last_char_app in E by (destruct name; [contradiction | discriminate]).
    change ("/" +:+ name) with (String "/" name) in E. cbn [last_char] in E.
    destruct (last_char name) eqn:El; [congruence|].
    apply last_char_none in El. contradiction. }
  unfold normalize_paths. fold sourcePath. rewrite Hglob, Hslash.
  unfold isdir. rewrite Hdir. f_equal. f_equal.
  rewrite Hsp. unfold posixpath.split.
  change (parent +:+ "/" +:+ name) with (parent +:+ String "/" name).
  rewrite split_app, Hsplit, last_snoc. cbn [default from_option fst]. unfold id.
  rewrite length_append. cbn [String.length].
  replace (String.length parent + S (String.length name) - String.length name)%nat
    with (String.length parent + 1)%nat by lia.
  rewrite substring_prefix_app.
  change (substring 0 1 (String "/" name)) with (String "/" (substring 0 0 name)).
  replace (substring 0 0 name) with EmptyString by (destruct name; reflexivity).
  destruct (String.eqb_spec parent "") as [-> | Hne]; [reflexivity|].
  destruct (String.eqb_spec (parent +:+ "/") "") as [Hempty | _].
  { destruct parent; [contradiction | discriminate]. }
  destruct (String.eqb_spec (parent +:+ "/")
              (Py.repeat_str "/" (String.length (parent +:+ "/")))) as [Hall | _].
  { apply all_slashes_last in Hall; [contradiction | exact Hne]. }
  cbn [negb andb]. apply rstrip_char_app; assumption.
Qed.

Lemma directory_destination_is_parent_witness :
  normalize_paths (demo_env 0) "/a/b" = inr ("/a/b", "/a").
Proof.
  apply (directory_destination_is_parent (demo_env 0) "/a/b" "/a" "b");
    try reflexivity; discriminate.
Defined.
